(** * perplexity_maubot: the responder gate and the answer pipeline

    A shallow embedding of [perplexity_bot.py] (class [PerplexityBot]) and
    the properties of its specification.

    Python [str] values are modelled as [string]; a character is a code
    point below 256 (the Latin-1 range), on which the tables below follow
    CPython's [str.isspace], [str.lower] and the [re] module.  Text outside
    that range is outside the model. *)

From Stdlib Require Import Ascii String NArith ZArith QArith List Bool Lia.
From stdpp Require Import gmap strings pretty.

Set Default Proof Using "Type".

(** ** Characters and [str] methods *)

Module Py.

Definition code (c : ascii) : N := N_of_ascii c.

(** [str.isspace] on one character: TAB..CR, FS..US, space, NEL, NBSP. *)
Definition isspace (c : ascii) : bool :=
  let n := code c in
  ((9 <=? n) && (n <=? 13) || (28 <=? n) && (n <=? 32)
   || (n =? 133) || (n =? 160))%N.

(** [str.lower] on one character: A..Z and the Latin-1 capitals. *)
Definition lower (c : ascii) : ascii :=
  let n := code c in
  if ((65 <=? n) && (n <=? 90)
      || (192 <=? n) && (n <=? 222) && negb (n =? 215))%N
  then ascii_of_N (n + 32) else c.

(** [s.startswith(p)] *)
Fixpoint startswith (s p : string) {struct p} : bool :=
  match p, s with
  | EmptyString, _ => true
  | String a p', String b s' => Ascii.eqb a b && startswith s' p'
  | String _ _, EmptyString => false
  end.

(** [s[n:]] for [0 <= n] *)
Fixpoint slice_from (n : nat) (s : string) : string :=
  match n, s with
  | O, _ => s
  | S n', String _ s' => slice_from n' s'
  | S _, EmptyString => EmptyString
  end.

Fixpoint lstrip (s : string) : string :=
  match s with
  | String c s' => if isspace c then lstrip s' else s
  | EmptyString => EmptyString
  end.

Fixpoint rstrip (s : string) : string :=
  match s with
  | EmptyString => EmptyString
  | String c s' =>
      match rstrip s' with
      | EmptyString => if isspace c then EmptyString else String c EmptyString
      | t => String c t
      end
  end.

(** [s.strip()] *)
Definition strip (s : string) : string := rstrip (lstrip s).

End Py.

(** ** The fragment of [re] the plugin relies on

    Patterns are kept in parsed form.  The matcher is the backtracking
    matcher of [re]: alternatives are tried left to right, [?] and [*] are
    greedy, and a failure of what follows makes the matcher fall back to the
    next choice.  A position in the subject is the suffix that remains to be
    read; [n] is the length of the whole subject. *)

Module Re.

Inductive set_item :=
| SChar (c : ascii)     (* a character listed in [...] *)
| SSpace.               (* \s listed in [...] *)

Inductive atom :=
| Lit (c : ascii)                (* a literal (possibly escaped) character *)
| Dot                            (* .  : anything but a newline *)
| Space                          (* \s *)
| CharSet (items : list set_item).   (* [...] *)

Inductive regex :=
| Eps                            (* the empty pattern *)
| One (a : atom)
| Bol                            (* ^ *)
| Eol                            (* $ *)
| Seq (r1 r2 : regex)
| Alt (r1 r2 : regex)            (* r1|r2 *)
| Opt (r : regex)                (* r? *)
| Star (a : atom).               (* a* *)

(** Equality of characters, up to case under [re.IGNORECASE]. *)
Definition char_eq (ic : bool) (p c : ascii) : bool :=
  if ic then Ascii.eqb (Py.lower c) (Py.lower p) else Ascii.eqb c p.

Definition item_matches (ic : bool) (c : ascii) (i : set_item) : bool :=
  match i with
  | SChar p => char_eq ic p c
  | SSpace => Py.isspace c
  end.

Definition atom_matches (ic : bool) (a : atom) (c : ascii) : bool :=
  match a with
  | Lit p => char_eq ic p c
  | Dot => negb (Ascii.eqb c "010")
  | Space => Py.isspace c
  | CharSet items => existsb (item_matches ic c) items
  end.

Fixpoint star_k (ic : bool) (a : atom) (s : string)
    (k : string -> option string) : option string :=
  match s with
  | String c s' =>
      if atom_matches ic a c then
        match star_k ic a s' k with
        | Some rest => Some rest
        | None => k s
        end
      else k s
  | EmptyString => k s
  end.

Fixpoint match_k (ic : bool) (n : nat) (r : regex) (s : string)
    (k : string -> option string) : option string :=
  match r with
  | Eps => k s
  | One a =>
      match s with
      | String c s' => if atom_matches ic a c then k s' else None
      | EmptyString => None
      end
  | Bol => if Nat.eqb (String.length s) n then k s else None
  | Eol =>
      match s with
      | EmptyString => k s
      | String c EmptyString => if Ascii.eqb c "010" then k s else None
      | _ => None
      end
  | Seq r1 r2 => match_k ic n r1 s (fun s1 => match_k ic n r2 s1 k)
  | Alt r1 r2 =>
      match match_k ic n r1 s k with
      | Some rest => Some rest
      | None => match_k ic n r2 s k
      end
  | Opt r1 =>
      match match_k ic n r1 s k with
      | Some rest => Some rest
      | None => k s
      end
  | Star a => star_k ic a s k
  end.

(** The end of a match attempt that started at [s].  With [must_advance]
    an empty match is refused, and the matcher backtracks. *)
Definition accept (must_advance : bool) (s rest : string) : option string :=
  if must_advance && Nat.eqb (String.length rest) (String.length s)
  then None else Some rest.

(** One match attempt at position [s]; the result is what remains of the
    subject after the match. *)
Definition match_at (ic : bool) (n : nat) (r : regex) (must_advance : bool)
    (s : string) : option string :=
  match_k ic n r s (accept must_advance s).

(** [re.match(r, s)]: an attempt at the start of the subject only.  The
    result is the end of the match, [None] when there is none. *)
Definition re_match (ic : bool) (r : regex) (s : string) : option nat :=
  match match_at ic (String.length s) r false s with
  | Some rest => Some (String.length s - String.length rest)
  | None => None
  end.

Fixpoint search_from (ic : bool) (n : nat) (r : regex) (s : string)
    : option (nat * nat) :=
  match match_at ic n r false s with
  | Some rest => Some (n - String.length s, n - String.length rest)
  | None =>
      match s with
      | String _ s' => search_from ic n r s'
      | EmptyString => None
      end
  end.

(** [re.search(r, s)]: the span of the leftmost match. *)
Definition re_search (ic : bool) (r : regex) (s : string)
    : option (nat * nat) :=
  search_from ic (String.length s) r s.

(** What [re.sub] finds at a position reached by scanning: whether an empty
    match is replaced there, and the length of the non-empty match that
    starts there, if any.  After an empty match the search is resumed at
    the same position and has to advance. *)
Definition found_at (ic : bool) (n : nat) (r : regex) (s : string)
    : bool * option nat :=
  match match_at ic n r false s with
  | None => (false, None)
  | Some rest =>
      if Nat.eqb (String.length rest) (String.length s) then
        (true,
         match match_at ic n r true s with
         | Some rest' => Some (String.length s - String.length rest')
         | None => None
         end)
      else (false, Some (String.length s - String.length rest))
  end.

(** [skip] counts the characters of the current match still to be
    dropped. *)
Fixpoint sub_from (ic : bool) (n : nat) (r : regex) (repl : string)
    (skip : nat) (s : string) : string :=
  match skip with
  | S k =>
      match s with
      | String _ s' => sub_from ic n r repl k s'
      | EmptyString => EmptyString
      end
  | O =>
      let '(e, m) := found_at ic n r s in
      (if e then repl else EmptyString) +:+
      match m, s with
      | Some (S k), String _ s' => repl +:+ sub_from ic n r repl k s'
      | _, String c s' => String c (sub_from ic n r repl 0 s')
      | _, EmptyString => EmptyString
      end
  end.

(** [re.sub(r, repl, s)] for a replacement without group references. *)
Definition re_sub (ic : bool) (r : regex) (repl s : string) : string :=
  sub_from ic (String.length s) r repl 0 s.

(** [re.escape(s)], parsed: the pattern that matches [s] literally. *)
Fixpoint escape (s : string) : regex :=
  match s with
  | EmptyString => Eps
  | String c s' => Seq (One (Lit c)) (escape s')
  end.

End Re.

Import Py Re.

(** ** Exceptions and results *)

Inductive exc :=
| KeyError (key_repr : string)   (* [str(e)] is the repr of the key *)
| IndexError (msg : string)
| TypeError (msg : string)
| ReError (msg : string)         (* [re.error] *)
| Failure (msg : string)         (* an [Exception] raised by a collaborator *)
| Cancelled.                     (* [asyncio.CancelledError], a [BaseException] *)

(** What [except Exception] catches. *)
Definition is_Exception (e : exc) : bool :=
  match e with
  | Cancelled => false
  | _ => true
  end.

(** [f"{e}"] *)
Definition exc_str (e : exc) : string :=
  match e with
  | KeyError r => r
  | IndexError m | TypeError m | ReError m | Failure m => m
  | Cancelled => ""
  end.

Inductive outcome (A : Type) :=
| Ok (a : A)
| Raise (e : exc).
Arguments Ok {A} a.
Arguments Raise {A} e.

(** ** JSON values, as [json.loads] and the YAML configuration give them *)

#[local] Set Warnings "-register-all".
Inductive json :=
| JNull
| JBool (b : bool)
| JInt (z : Z)
| JFloat (q : Q)
| JStr (s : string)
| JArr (l : list json)
| JObj (o : gmap string json).
#[local] Set Warnings "register-all".

(** [bool(v)] *)
Definition truthy (v : json) : bool :=
  match v with
  | JNull => false
  | JBool b => b
  | JInt z => negb (z =? 0)%Z
  | JFloat q => negb (Qeq_bool q 0)
  | JStr s => negb (String.eqb s "")
  | JArr l => match l with [] => false | _ => true end
  | JObj o => negb (bool_decide (o = ∅))
  end.

Definition not_subscriptable (ty : string) : exc :=
  TypeError ("'" +:+ ty +:+ "' object is not subscriptable").

(** [v[key]] for a [str] key *)
Definition getitem (v : json) (key : string) : outcome json :=
  match v with
  | JObj o =>
      match o !! key with
      | Some x => Ok x
      | None => Raise (KeyError ("'" +:+ key +:+ "'"))
      end
  | JArr _ => Raise (TypeError "list indices must be integers or slices, not str")
  | JStr _ => Raise (TypeError "string indices must be integers, not 'str'")
  | JNull => Raise (not_subscriptable "NoneType")
  | JBool _ => Raise (not_subscriptable "bool")
  | JInt _ => Raise (not_subscriptable "int")
  | JFloat _ => Raise (not_subscriptable "float")
  end.

(** [v[0]] *)
Definition getitem0 (v : json) : outcome json :=
  match v with
  | JArr (x :: _) => Ok x
  | JArr [] => Raise (IndexError "list index out of range")
  | JStr (String c _) => Ok (JStr (String c ""))
  | JStr "" => Raise (IndexError "string index out of range")
  | JObj _ => Raise (KeyError "0")
  | JNull => Raise (not_subscriptable "NoneType")
  | JBool _ => Raise (not_subscriptable "bool")
  | JInt _ => Raise (not_subscriptable "int")
  | JFloat _ => Raise (not_subscriptable "float")
  end.

(** ** Data of the plugin *)

(** An entry of [allowed_users]: a pattern that [re] compiles, in parsed
    form, or one that [re] rejects with [re.error]. *)
Inductive pattern :=
| Compiles (r : regex)
| Rejected (msg : string).

(** The configuration ([Config.do_update]); [None] and [JNull] stand for
    an option that is not set.  The three reserved options are never
    read. *)
Record Config := {
  openrouter_api_key : string;
  model : option string;
  max_tokens : json;
  temperature : json;
  allowed_users : list pattern;
  name : option string;
}.

Inductive MessageType := TEXT | NOTICE | EMOTE | OtherType (t : string).

Definition is_TEXT (t : MessageType) : bool :=
  match t with
  | TEXT => true
  | _ => false
  end.

(** An inbound [MessageEvent]. *)
Record MessageEvent := {
  sender : string;
  room_id : string;
  body : string;                 (* evt.content.body *)
  msgtype : MessageType;         (* evt.content.get("msgtype") *)
  reply_to : option string;      (* evt.content.relates_to.in_reply_to *)
}.

(** An event as [client.get_event] returns it; [ev_content] is [None]
    when the event has no [content] attribute. *)
Record Event := {
  ev_sender : string;
  ev_content : option (gmap string json);
}.

(** What [evt.respond] is given: a content object or a plain [str]. *)
Inductive payload :=
| Content (c : gmap string json)
| Text (s : string).

Inductive level := Info | Warning | Error | Exception.

(** The calls the plugin makes on its collaborators. *)
Inductive call :=
| GetJoinedMembers (room : string)
| GetEvent (room event : string)
| MarkRead
| SetTyping (room : string) (timeout : Z)
| Post (url : string) (headers : list (string * string))
       (data : gmap string json)     (* the object given to json.dumps *)
| Respond (p : payload)
| Log (l : level) (msg : string).

(** The HTTP response of the completion API. *)
Record Response := {
  status : Z;
  text : outcome string;         (* await response.text() *)
  json_body : outcome json;      (* await response.json() *)
}.

(** The collaborators, by the outcome of each call. *)
Record World := {
  mxid : string;                                   (* self.client.mxid *)
  get_joined_members : string -> outcome nat;      (* len(members) *)
  get_event : string -> string -> outcome (option Event);
  mark_read : outcome unit;
  set_typing : string -> Z -> outcome unit;
  http_post : string -> list (string * string) -> gmap string json
              -> outcome Response;
  render : json -> outcome string;                 (* markdown.render *)
  respond : payload -> outcome unit;
}.

(** ** Computations: the calls made so far and a result or an exception *)

Definition M (A : Type) : Type := list call * outcome A.

Definition ret {A} (a : A) : M A := ([], Ok a).

Definition bind {A B} (m : M A) (f : A -> M B) : M B :=
  match m with
  | (t, Ok a) => let '(t', r) := f a in (t ++ t', r)
  | (t, Raise e) => (t, Raise e)
  end.

Notation "'let*' x ':=' m 'in' k" := (bind m (fun x => k))
  (at level 10, x name, m at level 100, k at level 200).
Notation "'run' m 'in' k" := (bind m (fun _ => k))
  (at level 10, m at level 100, k at level 200).

(** A pure computation that may raise. *)
Definition lift {A} (r : outcome A) : M A := ([], r).

(** A call on a collaborator and its outcome. *)
Definition perform {A} (c : call) (r : outcome A) : M A := ([c], r).

Definition log (l : level) (msg : string) : M unit := ([Log l msg], Ok tt).

(** [try: m  except Exception as e: h e] *)
Definition try_except {A} (m : M A) (h : exc -> M A) : M A :=
  match m with
  | (t, Raise e) =>
      if is_Exception e then let '(t', r) := h e in (t ++ t', r) else m
  | _ => m
  end.

(** [try: m  finally: c] *)
Definition try_finally {A} (m : M A) (c : M unit) : M A :=
  let '(t, r) := m in
  let '(t', r') := c in
  (t ++ t', match r' with Raise e => Raise e | Ok _ => r end).

(** ** The plugin: [class PerplexityBot] *)

(** [self.name], set by [start] *)
Definition bot_name (cfg : Config) : string := default "fxivity" (name cfg).

Definition api_endpoint : string :=
  "https://openrouter.ai/api/v1/chat/completions".

(** The key of the continuation marker. *)
Definition marker : string := "org.example.perplexity".

(** One entry of [allowed_users] tried on [mxid]: the truth value of
    [re.match(pattern, mxid)]. *)
Definition pattern_match (p : pattern) (mxid : string) : outcome bool :=
  match p with
  | Compiles r => Ok (bool_decide (is_Some (re_match false r mxid)))
  | Rejected msg => Raise (ReError msg)
  end.

(** The loop of [user_allowed]. *)
Fixpoint first_match (patterns : list pattern) (mxid : string)
    : outcome bool :=
  match patterns with
  | [] => Ok false
  | p :: rest =>
      match pattern_match p mxid with
      | Ok true => Ok true
      | Ok false => first_match rest mxid
      | Raise e => Raise e
      end
  end.

Definition user_allowed (cfg : Config) (mxid : string) : outcome bool :=
  match allowed_users cfg with
  | [] => Ok true
  | patterns => first_match patterns mxid
  end.

(** [r"(^|\s)(@)?" + re.escape(bot_name) + r"([ :,.!?]|$)"] *)
Definition mention_pattern (bot_name : string) : regex :=
  Seq (Alt Bol (One Space))
    (Seq (Opt (One (Lit "@")))
       (Seq (escape bot_name)
          (Alt (One (CharSet [SChar " "; SChar ":"; SChar ","; SChar ".";
                              SChar "!"; SChar "?"]))
               Eol))).

(** The name test of [should_respond]: [re.search] of the mention pattern
    in the body, with [re.IGNORECASE]. *)
Definition mentions (bot_name body : string) : bool :=
  bool_decide (is_Some (re_search true (mention_pattern bot_name) body)).

(** The parent of a reply qualifies when it exists, is the bot's own and
    has the marker among the keys of its content. *)
Definition is_continuation (w : World) (parent_event : option Event) : bool :=
  match parent_event with
  | Some p =>
      String.eqb (ev_sender p) (mxid w) &&
      match ev_content p with
      | Some c => bool_decide (is_Some (c !! marker))
      | None => false
      end
  | None => false
  end.

(** In the two [try] blocks [Some b] stands for [return b] and [None] for
    falling out of the block. *)
Definition should_respond (w : World) (cfg : Config) (evt : MessageEvent)
    : M bool :=
  if String.eqb (sender evt) (mxid w)
     || startswith (body evt) "!"
     || negb (is_TEXT (msgtype evt))
  then ret false
  else if mentions (bot_name cfg) (body evt)
          || startswith (body evt) "!sonar"
  then lift (user_allowed cfg (sender evt))
  else
    let* dm :=
      try_except
        (let* members := perform (GetJoinedMembers (room_id evt))
                                 (get_joined_members w (room_id evt)) in
         if Nat.eqb members 2 then
           let* allowed := lift (user_allowed cfg (sender evt)) in
           ret (Some allowed)
         else ret None)
        (fun _ => ret None) in
    match dm with
    | Some allowed => ret allowed
    | None =>
        match reply_to evt with
        | Some parent_id =>
            let* continued :=
              try_except
                (let* parent_event :=
                   perform (GetEvent (room_id evt) parent_id)
                           (get_event w (room_id evt) parent_id) in
                 if is_continuation w parent_event then
                   let* allowed := lift (user_allowed cfg (sender evt)) in
                   ret (Some allowed)
                 else ret None)
                (fun e =>
                   run log Warning ("Failed to get parent event: " +:+ exc_str e) in
                   ret None) in
            match continued with
            | Some allowed => ret allowed
            | None => ret false
            end
        | None => ret false
        end
    end.

(** [r'@?' + re.escape(self.name) + r'[\s:,.!?]*'] *)
Definition name_pattern (bot_name : string) : regex :=
  Seq (Opt (One (Lit "@")))
    (Seq (escape bot_name)
       (Star (CharSet [SSpace; SChar ":"; SChar ","; SChar "."; SChar "!";
                       SChar "?"]))).

(** The query of [on_message] (under [# Extract query]). *)
Definition extract_query (bot_name body : string) : string :=
  if startswith body "!sonar" then strip (slice_from 6 body)
  else strip (re_sub true (name_pattern bot_name) "" body).

(** The [data] of [_call_openrouter]. *)
Definition request_data (cfg : Config) (query : string) : gmap string json :=
  let data : gmap string json :=
    <["messages" :=
        JArr [JObj (<["content" := JStr query]> (<["role" := JStr "user"]> ∅))]]>
      (<["model" := JStr (default "perplexity/sonar-pro" (model cfg))]> ∅) in
  let data :=
    if truthy (max_tokens cfg)
    then <["max_tokens" := max_tokens cfg]> data else data in
  match temperature cfg with
  | JNull => data
  | t => <["temperature" := t]> data
  end.

(** The [headers] of [_call_openrouter]. *)
Definition request_headers (cfg : Config) : list (string * string) :=
  [("Content-Type", "application/json");
   ("Authorization", "Bearer " +:+ openrouter_api_key cfg);
   ("HTTP-Referer", "https://github.com/example/perplexity-maubot");
   ("X-Title", "Perplexity Maubot Plugin")].

Definition _call_openrouter (w : World) (cfg : Config) (query : string)
    : M json :=
  let headers := request_headers cfg in
  let data := request_data cfg query in
  let* response := perform (Post api_endpoint headers data)
                           (http_post w api_endpoint headers data) in
  if negb (status response =? 200)%Z then
    let* error_text := lift (text response) in
    run log Error ("OpenRouter API error: " +:+ pretty (status response)
                   +:+ " - " +:+ error_text) in
    ret (JStr ("Error: API returned status " +:+ pretty (status response)))
  else
    let* response_json := lift (json_body response) in
    let* choices := lift (getitem response_json "choices") in
    let* choice := lift (getitem0 choices) in
    let* message := lift (getitem choice "message") in
    lift (getitem message "content").

(** The [TextMessageEventContent] of [on_message], marker set. *)
Definition answer_content (response : json) (formatted_body : string)
    : gmap string json :=
  <[marker := JBool true]>
    (<["formatted_body" := JStr formatted_body]>
       (<["format" := JStr "org.matrix.custom.html"]>
          (<["body" := response]>
             (<["msgtype" := JStr "m.notice"]> ∅)))).

Definition on_message (w : World) (cfg : Config) (evt : MessageEvent)
    : M unit :=
  let* go := should_respond w cfg evt in
  if negb go then ret tt
  else
    try_finally
      (try_except
         (run perform MarkRead (mark_read w) in
          run perform (SetTyping (room_id evt) 30000)
                      (set_typing w (room_id evt) 30000) in
          let query := extract_query (bot_name cfg) (body evt) in
          let* response := _call_openrouter w cfg query in
          let* formatted_body := lift (render w response) in
          let content := answer_content response formatted_body in
          perform (Respond (Content content)) (respond w (Content content)))
         (fun e =>
            run log Exception ("Error handling message: " +:+ exc_str e) in
            let reply := Text ("Something went wrong: " +:+ exc_str e) in
            perform (Respond reply) (respond w reply)))
      (perform (SetTyping (room_id evt) 0) (set_typing w (room_id evt) 0)).

(** The [sonar] command. *)
Definition sonar (w : World) (cfg : Config) (evt : MessageEvent)
    (query : string) : M unit :=
  on_message w cfg evt.

(** ** A concrete configuration and world, for the examples *)

Definition cfg0 : Config := {|
  openrouter_api_key := "sk-test";
  model := None;
  max_tokens := JNull;
  temperature := JNull;
  allowed_users := [];
  name := Some "fxivity";
|}.

(** A multi-user room, a working chat client and a completion API that
    answers with status 500 and body "server error". *)
Definition world0 : World := {|
  mxid := "@fxivity:example.org";
  get_joined_members := fun _ => Ok 5;
  get_event := fun _ _ => Ok None;
  mark_read := Ok tt;
  set_typing := fun _ _ => Ok tt;
  http_post := fun _ _ _ =>
    Ok {| status := 500; text := Ok "server error";
          json_body := Raise (Failure "not JSON") |};
  render := fun v =>
    match v with
    | JStr s => Ok ("<p>" +:+ s +:+ "</p>")
    | _ => Raise (TypeError "expected string")
    end;
  respond := fun _ => Ok tt;
|}.

Definition message (from text : string) (parent : option string)
    : MessageEvent :=
  {| sender := from; room_id := "!room:example.org"; body := text;
     msgtype := TEXT; reply_to := parent |}.

(** [w] with the given outcome of fetching a parent event. *)
Definition with_parent (w : World) (parent : outcome (option Event)) : World :=
  {| mxid := mxid w;
     get_joined_members := get_joined_members w;
     get_event := fun _ _ => parent;
     mark_read := mark_read w;
     set_typing := set_typing w;
     http_post := http_post w;
     render := render w;
     respond := respond w |}.

(** [w] with the given outcome of the HTTP request. *)
Definition with_http (w : World) (post : outcome Response) : World :=
  {| mxid := mxid w;
     get_joined_members := get_joined_members w;
     get_event := get_event w;
     mark_read := mark_read w;
     set_typing := set_typing w;
     http_post := fun _ _ _ => post;
     render := render w;
     respond := respond w |}.

(** An answer of the bot, as the room holds it. *)
Definition answer_event : Event :=
  {| ev_sender := "@fxivity:example.org";
     ev_content := Some (answer_content (JStr "Paris") "<p>Paris</p>") |}.

(** ** Notions used in the statements *)

(** *** The gate *)

Definition no_match (mxid : string) (p : pattern) : Prop :=
  pattern_match p mxid = Ok false.


(** The direct-message rule leaves the decision open: the room does not
    have exactly two members, or the lookup fails, or the allow-list check
    fails inside the [try]. *)
Definition dm_undecided (w : World) (cfg : Config) (evt : MessageEvent)
    : Prop :=
  match get_joined_members w (room_id evt) with
  | Ok members =>
      members <> 2 \/ exists e, user_allowed cfg (sender evt) = Raise e
  | Raise e => is_Exception e = true
  end.

(** A message that the first three rules neither reject nor accept. *)
Definition reaches_reply_rule (w : World) (cfg : Config) (evt : MessageEvent)
    : Prop :=
  sender evt <> mxid w /\
  startswith (body evt) "!" = false /\
  msgtype evt = TEXT /\
  mentions (bot_name cfg) (body evt) = false /\
  dm_undecided w cfg evt.

(** The gate from the reply-chain rule on. *)
Definition reply_rule (w : World) (cfg : Config) (evt : MessageEvent)
    : M bool :=
  match reply_to evt with
  | Some parent_id =>
      match get_event w (room_id evt) parent_id with
      | Ok parent_event =>
          if is_continuation w parent_event then
            match user_allowed cfg (sender evt) with
            | Ok allowed => ([GetEvent (room_id evt) parent_id], Ok allowed)
            | Raise e =>
                ([GetEvent (room_id evt) parent_id;
                  Log Warning ("Failed to get parent event: " +:+ exc_str e)],
                 Ok false)
            end
          else ([GetEvent (room_id evt) parent_id], Ok false)
      | Raise e =>
          if is_Exception e then
            ([GetEvent (room_id evt) parent_id;
              Log Warning ("Failed to get parent event: " +:+ exc_str e)],
             Ok false)
          else ([GetEvent (room_id evt) parent_id], Raise e)
      end
  | None => ([], Ok false)
  end.

(** *** The pipeline *)

(** The shape of what the plugin sends: a content with the marker set, or
    the text of the exception path. *)
Definition reply_shape (c : call) : Prop :=
  match c with
  | Respond (Content content) => content !! marker = Some (JBool true)
  | Respond (Text s) => exists e, s = "Something went wrong: " +:+ exc_str e
  | _ => True
  end.

(** The chat client answers every call, and the renderer accepts every
    string. *)
Definition client_works (w : World) : Prop :=
  mark_read w = Ok tt /\
  (forall room timeout, set_typing w room timeout = Ok tt) /\
  (forall s, exists html, render w (JStr s) = Ok html) /\
  (forall p, respond w p = Ok tt).

(** The text returned for a response whose status is not 200. *)
Definition status_error (resp : Response) : string :=
  "Error: API returned status " +:+ pretty (status resp).

(** The completion API answers the request of [evt] with [resp]. *)
Definition answered_with (w : World) (cfg : Config) (evt : MessageEvent)
    (resp : Response) : Prop :=
  http_post w api_endpoint (request_headers cfg)
    (request_data cfg (extract_query (bot_name cfg) (body evt))) = Ok resp.


(** *** The query *)

(** The query as the specification words it: without the command token,
    otherwise without the occurrences of the name-mention pattern of the
    gate. *)
Definition spec_extract_query (bot_name body : string) : string :=
  if startswith body "!sonar" then strip (slice_from 6 body)
  else strip (re_sub true (mention_pattern bot_name) "" body).

(** [name] starts [s], case ignored. *)
Fixpoint starts_with_name (name s : string) {struct name} : bool :=
  match name, s with
  | EmptyString, _ => true
  | String p name', String c s' =>
      Ascii.eqb (lower c) (lower p) && starts_with_name name' s'
  | String _ _, EmptyString => false
  end.

(** Whitespace and the characters [:,.!?]. *)
Definition is_trailer (c : ascii) : bool :=
  isspace c || existsb (Ascii.eqb c) [":"; ","; "."; "!"; "?"]%char.

(** The length of the run of trailer characters that starts [s]. *)
Fixpoint trailer_length (s : string) : nat :=
  match s with
  | String c s' => if is_trailer c then S (trailer_length s') else 0
  | EmptyString => 0
  end.

(** The name, case ignored, followed by its trailer, at the start of
    [s]: the length of the two together. *)
Definition name_and_trailer (bot_name s : string) : option nat :=
  if starts_with_name bot_name s then
    Some (String.length bot_name
          + trailer_length (slice_from (String.length bot_name) s))
  else None.

(** The occurrence of the name at the start of [s]: with the "@" before
    it when the name follows one, without it otherwise. *)
Definition name_occurrence (bot_name s : string) : option nat :=
  match s with
  | String c s' =>
      if Ascii.eqb c "@" && starts_with_name bot_name s'
      then S <$> name_and_trailer bot_name s'
      else name_and_trailer bot_name s
  | EmptyString => name_and_trailer bot_name s
  end.

(** The body without the occurrences of the name, found from left to
    right; [skip] counts the characters of the current occurrence still to
    be dropped. *)
Fixpoint remove_names (bot_name : string) (skip : nat) (s : string)
    : string :=
  match s with
  | EmptyString => EmptyString
  | String c s' =>
      match skip with
      | S k => remove_names bot_name k s'
      | O =>
          match name_occurrence bot_name s with
          | Some (S k) => remove_names bot_name k s'
          | _ => String c (remove_names bot_name 0 s')
          end
      end
  end.

(** *** The gate and the pipeline, call by call *)

(** The calls of the gate: the two lookups, in the room of the message
    and on the event it replies to, and the warning. *)
Definition gate_call (evt : MessageEvent) (c : call) : Prop :=
  match c with
  | GetJoinedMembers room => room = room_id evt
  | GetEvent room event => room = room_id evt /\ reply_to evt = Some event
  | Log l _ => l = Warning
  | _ => False
  end.

Definition is_Post (c : call) : bool :=
  match c with
  | Post _ _ _ => true
  | _ => false
  end.

Definition is_Respond (c : call) : bool :=
  match c with
  | Respond _ => true
  | _ => false
  end.

(** The answer in a completion payload: [choices[0].message.content]
    where the payload is an object, its choices a list and the first
    choice and its message objects. *)
Definition completion_content (payload : json) : option json :=
  match payload with
  | JObj o =>
      match o !! "choices" with
      | Some (JArr (JObj choice :: _)) =>
          match choice !! "message" with
          | Some (JObj message) => message !! "content"
          | _ => None
          end
      | _ => None
      end
  | _ => None
  end.

(** The chain of subscripts of [_call_openrouter],
    [response_json["choices"][0]["message"]["content"]]. *)
Definition first_content (response_json : json) : outcome json :=
  match getitem response_json "choices" with
  | Raise e => Raise e
  | Ok choices =>
      match getitem0 choices with
      | Raise e => Raise e
      | Ok choice =>
          match getitem choice "message" with
          | Raise e => Raise e
          | Ok message => getitem message "content"
          end
      end
  end.

(** *** The name test, as a scan *)

Definition found {A} (o : option A) : bool :=
  match o with
  | Some _ => true
  | None => false
  end.

(** One of the characters [ :,.!?]. *)
Definition is_boundary (c : ascii) : bool :=
  existsb (Ascii.eqb c) [" "; ":"; ","; "."; "!"; "?"]%char.

(** What may follow the name: a boundary character, the end of the body,
    or the newline that ends the body. *)
Definition boundary_follows (s : string) : bool :=
  match s with
  | EmptyString => true
  | String c s' =>
      is_boundary c
      || (Ascii.eqb c "010" && match s' with EmptyString => true | _ => false end)
  end.

(** The name, case ignored, and what may follow it, at the start of [s]. *)
Definition name_token (bot_name s : string) : bool :=
  starts_with_name bot_name s
  && boundary_follows (slice_from (String.length bot_name) s).

(** The token with or without an "@" before it. *)
Definition token_at (bot_name s : string) : bool :=
  match s with
  | String c s' =>
      (Ascii.eqb c "@" && name_token bot_name s') || name_token bot_name s
  | EmptyString => name_token bot_name s
  end.

(** The token at the start of the body, or after a whitespace character
    anywhere in it. *)
Fixpoint addressed_from (bot_name : string) (at_start : bool) (s : string)
    : bool :=
  (at_start && token_at bot_name s)
  || match s with
     | String c s' =>
         (isspace c && token_at bot_name s')
         || addressed_from bot_name false s'
     | EmptyString => false
     end.

Definition addressed (bot_name body : string) : bool :=
  addressed_from bot_name true body.

(** ** Properties of the computations *)

Lemma bind_Ok {A B} (t : list call) (a : A) (f : A -> M B) :
  bind (t, Ok a) f = (t ++ fst (f a), snd (f a)).
Proof. unfold bind. destruct (f a); reflexivity. Qed.

Lemma bind_Raise {A B} (t : list call) (e : exc) (f : A -> M B) :
  bind (t, Raise e) f = (t, Raise e).
Proof. reflexivity. Qed.

Lemma try_finally_calls {A} (m : M A) (c : call) (r : outcome unit) :
  fst (try_finally m (perform c r)) = fst m ++ [c].
Proof. destruct m; reflexivity. Qed.

(** ** The responder gate *)

Lemma should_respond_own w cfg evt :
  sender evt = mxid w -> should_respond w cfg evt = ([], Ok false).
Proof.
  intros Hown. unfold should_respond.
  rewrite Hown, String.eqb_refl. reflexivity.
Qed.

Lemma should_respond_bang w cfg evt :
  startswith (body evt) "!" = true ->
  should_respond w cfg evt = ([], Ok false).
Proof.
  intros Hbang. unfold should_respond.
  rewrite Hbang, orb_true_r. reflexivity.
Qed.

Lemma startswith_sonar_bang s :
  startswith s "!sonar" = true -> startswith s "!" = true.
Proof.
  destruct s as [|c s]; cbn [startswith]; [discriminate|].
  destruct (Ascii.eqb "!" c); [reflexivity | discriminate].
Qed.

(** Whatever starts with the command token is turned away by the first
    test of the gate, and the command handler with it. *)
Lemma sonar_body_rejected w cfg evt query :
  startswith (body evt) "!sonar" = true ->
  should_respond w cfg evt = ([], Ok false) /\
  sonar w cfg evt query = ([], Ok tt).
Proof.
  intros H. apply startswith_sonar_bang in H.
  unfold sonar, on_message. rewrite (should_respond_bang _ _ _ H).
  split; reflexivity.
Qed.

(** C1 (the code departs from the claim).  The body
    "!sonar capital of France", sent as plain text by a sender the
    allow-list admits, starts with the command token, and yet the gate
    answers false before it reaches the direct-address rule: the first
    test turns away every body that starts with "!".  The [sonar] command
    goes through the same gate and does nothing. *)
Theorem sonar_command_is_ignored :
  let evt := message "@alice:example.org" "!sonar capital of France" None in
  startswith (body evt) "!sonar" = true /\
  user_allowed cfg0 (sender evt) = Ok true /\
  should_respond world0 cfg0 evt = ([], Ok false) /\
  sonar world0 cfg0 evt "capital of France" = ([], Ok tt).
Proof. repeat split. Qed.

(** C3.  A message sent by the bot's own identity is never answered,
    whatever its body, kind, reply relation or room: the gate returns
    false without a single call, and [on_message] does nothing. *)
Theorem own_message_never_answered w cfg evt :
  sender evt = mxid w ->
  should_respond w cfg evt = ([], Ok false) /\
  on_message w cfg evt = ([], Ok tt).
Proof.
  intros Hown. unfold on_message.
  rewrite (should_respond_own _ _ _ Hown). split; reflexivity.
Qed.

Lemma own_message_never_answered_witness :
  let evt := message "@fxivity:example.org" "fxivity, are you there?"
                     (Some "$parent") in
  should_respond world0 cfg0 evt = ([], Ok false) /\
  on_message world0 cfg0 evt = ([], Ok tt).
Proof. apply (own_message_never_answered world0 cfg0). reflexivity. Defined.

(** C9.  With the bot name "fxivity" the name test of the gate succeeds on
    "fxivity hello", "@fxivity, hi" and "hi fxivity!", and fails on
    "fxivityish hello". *)
Theorem direct_address_examples :
  bot_name cfg0 = "fxivity" /\
  mentions (bot_name cfg0) "fxivity hello" = true /\
  mentions (bot_name cfg0) "@fxivity, hi" = true /\
  mentions (bot_name cfg0) "hi fxivity!" = true /\
  mentions (bot_name cfg0) "fxivityish hello" = false.
Proof. repeat split. Qed.

(** The gate on the four bodies, in a room of five with an empty
    allow-list. *)
Example direct_address_gate :
  let gate text :=
    should_respond world0 cfg0 (message "@alice:example.org" text None) in
  gate "fxivity hello" = ([], Ok true) /\
  gate "@fxivity, hi" = ([], Ok true) /\
  gate "hi fxivity!" = ([], Ok true) /\
  gate "fxivityish hello"
    = ([GetJoinedMembers "!room:example.org"], Ok false).
Proof. repeat split. Qed.

(** ** The allow-list *)

Lemma first_match_true patterns mxid :
  first_match patterns mxid = Ok true <->
  exists before p after,
    patterns = before ++ p :: after /\
    Forall (no_match mxid) before /\
    pattern_match p mxid = Ok true.
Proof.
  induction patterns as [|q rest IH]; simpl.
  - split; [discriminate|].
    intros (before & p & after & Heq & _). destruct before; discriminate.
  - destruct (pattern_match q mxid) as [[|]|e] eqn:Hq.
    + split; [|reflexivity]. intros _. exists [], q, rest. auto.
    + rewrite IH. split.
      * intros (before & p & after & -> & Hbefore & Hp).
        exists (q :: before), p, after. repeat split; auto.
      * intros (before & p & after & Heq & Hbefore & Hp).
        destruct before as [|q' before]; simpl in Heq; inversion Heq; subst.
        -- congruence.
        -- inversion Hbefore; subst. exists before, p, after. auto.
    + split; [discriminate|].
      intros (before & p & after & Heq & Hbefore & Hp).
      destruct before as [|q' before]; simpl in Heq; inversion Heq; subst.
      * congruence.
      * inversion Hbefore; subst. unfold no_match in *. congruence.
Qed.

Lemma first_match_false patterns mxid :
  first_match patterns mxid = Ok false <-> Forall (no_match mxid) patterns.
Proof.
  induction patterns as [|q rest IH]; simpl.
  - split; auto.
  - destruct (pattern_match q mxid) as [[|]|e] eqn:Hq.
    + split; [discriminate|]. inversion 1; subst.
      unfold no_match in *. congruence.
    + rewrite IH. split; [auto|]. inversion 1; auto.
    + split; [discriminate|]. inversion 1; subst.
      unfold no_match in *. congruence.
Qed.



(** [user_allowed] returns true exactly when the allow-list is empty or
    some pattern matches and every pattern before it was tried without
    matching; it returns false exactly when the list is non-empty and no
    pattern matches. *)
Lemma user_allowed_iff cfg mxid :
  (user_allowed cfg mxid = Ok true <->
     allowed_users cfg = [] \/
     exists before p after,
       allowed_users cfg = before ++ p :: after /\
       Forall (no_match mxid) before /\
       pattern_match p mxid = Ok true) /\
  (user_allowed cfg mxid = Ok false <->
     allowed_users cfg <> [] /\ Forall (no_match mxid) (allowed_users cfg)).
Proof.
  unfold user_allowed. split.
  - destruct (allowed_users cfg) as [|q rest] eqn:Hl.
    + split; auto.
    + rewrite first_match_true. split; [auto|]. intros [|]; [discriminate|auto].
  - destruct (allowed_users cfg) as [|q rest] eqn:Hl.
    + split; [discriminate|]. intros [? _]. congruence.
    + rewrite first_match_false. split; [|tauto]. split; [discriminate|auto].
Qed.









(** [re.match] holds a pattern to the start of the identity, not to its
    end; the first match ends the loop before a later entry that [re]
    rejects is reached. *)
Example allow_list_examples :
  let only ps := {| openrouter_api_key := "sk-test"; model := None;
                    max_tokens := JNull; temperature := JNull;
                    allowed_users := ps; name := None |} in
  (* r"@alice:example\.org" *)
  let alice := Compiles (escape "@alice:example.org") in
  (* r"@.*:example\.org" *)
  let anyone := Compiles (Seq (One (Lit "@"))
                            (Seq (Star Dot) (escape ":example.org"))) in
  let broken := Rejected "unterminated character set at position 0" in
  user_allowed (only []) "@mallory:evil.net" = Ok true /\
  user_allowed (only [alice]) "@alice:example.org" = Ok true /\
  user_allowed (only [alice]) "@alice:example.organic.net" = Ok true /\
  user_allowed (only [alice]) "x@alice:example.org" = Ok false /\
  user_allowed (only [alice; anyone]) "@bob:example.org" = Ok true /\
  user_allowed (only [alice; anyone]) "@bob:evil.net" = Ok false /\
  user_allowed (only [anyone; broken]) "@bob:example.org" = Ok true /\
  user_allowed (only [broken; anyone]) "@bob:example.org"
    = Raise (ReError "unterminated character set at position 0").
Proof. repeat split. Qed.

(** [user_allowed] raises nothing but [re.error]. *)
Lemma user_allowed_raises cfg mxid e :
  user_allowed cfg mxid = Raise e -> is_Exception e = true.
Proof.
  unfold user_allowed.
  assert (H : forall ps, first_match ps mxid = Raise e -> is_Exception e = true).
  { induction ps as [|p ps IH]; simpl; [discriminate|].
    destruct p as [r|msg]; simpl.
    - destruct (bool_decide _); [discriminate | exact IH].
    - intros [= <-]. reflexivity. }
  destruct (allowed_users cfg); [discriminate | apply H].
Qed.

(** ** The reply-chain rule *)

Lemma is_continuation_spec w parent_event :
  is_continuation w parent_event = true <->
  exists parent content,
    parent_event = Some parent /\
    ev_sender parent = mxid w /\
    ev_content parent = Some content /\
    is_Some (content !! marker).
Proof.
  unfold is_continuation. destruct parent_event as [p|].
  - rewrite andb_true_iff, String.eqb_eq. split.
    + intros [Hs Hc]. destruct (ev_content p) as [c|] eqn:Hp; [|discriminate].
      apply bool_decide_eq_true in Hc. eauto 10.
    + intros (parent & c & [= <-] & Hs & Hc & Hm). rewrite Hc.
      split; [exact Hs | apply bool_decide_eq_true; exact Hm].
  - split; [discriminate|]. intros (? & ? & ? & _). discriminate.
Qed.

Lemma should_respond_reply_rule w cfg evt :
  reaches_reply_rule w cfg evt ->
  should_respond w cfg evt =
    (GetJoinedMembers (room_id evt) :: fst (reply_rule w cfg evt),
     snd (reply_rule w cfg evt)).
Proof.
  intros (Hs & Hbang & Ht & Hm & Hdm).
  unfold should_respond, reply_rule.
  assert (Hsonar : startswith (body evt) "!sonar" = false).
  { destruct (startswith (body evt) "!sonar") eqn:E; [|reflexivity].
    apply startswith_sonar_bang in E. congruence. }
  apply String.eqb_neq in Hs. rewrite Hs, Hbang, Ht, Hm, Hsonar.
  cbn [orb negb is_TEXT]. unfold dm_undecided in Hdm.
  assert (Hdm' :
    try_except
      (let* members := perform (GetJoinedMembers (room_id evt))
                               (get_joined_members w (room_id evt)) in
       if Nat.eqb members 2 then
         let* allowed := lift (user_allowed cfg (sender evt)) in
         ret (Some allowed)
       else ret None)
      (fun _ => ret None)
    = ([GetJoinedMembers (room_id evt)], Ok None)).
  { unfold perform. destruct (get_joined_members w (room_id evt)) as [n|e].
    - rewrite bind_Ok. destruct (Nat.eqb n 2) eqn:En.
      + destruct Hdm as [Hn|[e He]]; [apply Nat.eqb_eq in En; contradiction|].
        rewrite He. simpl. rewrite (user_allowed_raises _ _ _ He). reflexivity.
      + reflexivity.
    - simpl. rewrite Hdm. reflexivity. }
  rewrite Hdm'. rewrite bind_Ok. simpl.
  destruct (reply_to evt) as [parent_id|]; [|reflexivity].
  unfold perform.
  destruct (get_event w (room_id evt) parent_id) as [parent_event|e].
  - destruct (is_continuation w parent_event).
    + destruct (user_allowed cfg (sender evt)) as [b|e] eqn:Hu.
      * reflexivity.
      * simpl. rewrite (user_allowed_raises _ _ _ Hu). reflexivity.
    + reflexivity.
  - simpl. destruct (is_Exception e); reflexivity.
Qed.

(** C4.  For a message that the first three rules leave undecided, the
    gate returns true exactly when the message declares a reply-to
    relation, the fetched parent exists, was sent by the bot, has the
    continuation marker in its content, and the sender passes the
    allow-list.  A parent without the marker gives false whatever the
    allow-list says, and a failed fetch is logged and gives false. *)
Theorem reply_chain_continuation w cfg evt :
  reaches_reply_rule w cfg evt ->
  (snd (should_respond w cfg evt) = Ok true <->
     exists parent_id parent content,
       reply_to evt = Some parent_id /\
       get_event w (room_id evt) parent_id = Ok (Some parent) /\
       ev_sender parent = mxid w /\
       ev_content parent = Some content /\
       is_Some (content !! marker) /\
       user_allowed cfg (sender evt) = Ok true) /\
  (forall parent_id parent,
     reply_to evt = Some parent_id ->
     get_event w (room_id evt) parent_id = Ok (Some parent) ->
     (forall content,
        ev_content parent = Some content -> content !! marker = None) ->
     should_respond w cfg evt =
       ([GetJoinedMembers (room_id evt); GetEvent (room_id evt) parent_id],
        Ok false)) /\
  (forall parent_id e,
     reply_to evt = Some parent_id ->
     get_event w (room_id evt) parent_id = Raise e ->
     is_Exception e = true ->
     should_respond w cfg evt =
       ([GetJoinedMembers (room_id evt); GetEvent (room_id evt) parent_id;
         Log Warning ("Failed to get parent event: " +:+ exc_str e)],
        Ok false)).
Proof.
  intros Hreach. rewrite (should_respond_reply_rule _ _ _ Hreach).
  unfold reply_rule. split; [|split].
  - simpl. destruct (reply_to evt) as [parent_id|].
    + destruct (get_event w (room_id evt) parent_id) as [parent_event|e] eqn:Hg.
      * destruct (is_continuation w parent_event) eqn:Hc.
        -- apply is_continuation_spec in Hc
             as (parent & content & -> & Hs & Hcont & Hm).
           destruct (user_allowed cfg (sender evt)) as [b|e] eqn:Hu; simpl.
           ++ split.
              ** intros [= ->]. exists parent_id, parent, content. auto 10.
              ** intros (? & ? & ? & _ & _ & _ & _ & _ & Hb). exact Hb.
           ++ split; [discriminate|].
              intros (? & ? & ? & _ & _ & _ & _ & _ & Hb). discriminate.
        -- simpl. split; [discriminate|].
           intros (pid & parent & content & [= <-] & Hg' & Hs & Hcont & Hm & _).
           rewrite Hg in Hg'. injection Hg' as ->.
           assert (Hc' : is_continuation w (Some parent) = true)
             by (apply is_continuation_spec; eauto 10).
           congruence.
      * destruct (is_Exception e); simpl; (split; [discriminate|]);
          intros (pid & ? & ? & [= <-] & Hg' & _); congruence.
    + simpl. split; [discriminate|]. intros (? & ? & ? & ? & _). discriminate.
  - intros parent_id parent Hr Hg Hnone. rewrite Hr, Hg.
    destruct (is_continuation w (Some parent)) eqn:Hc; [|reflexivity].
    apply is_continuation_spec in Hc as (? & content & [= <-] & _ & Hcont & [v Hv]).
    rewrite (Hnone _ Hcont) in Hv. discriminate.
  - intros parent_id e Hr Hg He. rewrite Hr, Hg, He. reflexivity.
Qed.

Lemma reply_chain_continuation_witness :
  let w := with_parent world0 (Ok (Some answer_event)) in
  let evt := message "@alice:example.org" "and of Spain?" (Some "$answer") in
  reaches_reply_rule w cfg0 evt /\
  snd (should_respond w cfg0 evt) = Ok true.
Proof.
  intros w evt.
  assert (Hreach : reaches_reply_rule w cfg0 evt).
  { repeat split; try reflexivity; [discriminate | left; discriminate]. }
  split; [exact Hreach|].
  apply (proj1 (reply_chain_continuation w cfg0 evt Hreach)).
  exists "$answer", answer_event, (answer_content (JStr "Paris") "<p>Paris</p>").
  repeat split. exists (JBool true). reflexivity.
Defined.

(** ** The completion request *)

Lemma request_data_lookup cfg query :
  let data := request_data cfg query in
  data !! "model" = Some (JStr (default "perplexity/sonar-pro" (model cfg))) /\
  data !! "messages" =
    Some (JArr [JObj (<["content" := JStr query]>
                        (<["role" := JStr "user"]> ∅))]) /\
  data !! "max_tokens" =
    (if truthy (max_tokens cfg) then Some (max_tokens cfg) else None) /\
  data !! "temperature" =
    (match temperature cfg with JNull => None | t => Some t end).
Proof.
  unfold request_data.
  destruct (truthy (max_tokens cfg)); destruct (temperature cfg);
    repeat split; simplify_map_eq; reflexivity.
Qed.

(** C8, as the claim states it, fails: a [max_tokens] of 0 is explicitly
    configured, and the request has no "max_tokens" field. *)
Lemma max_tokens_zero_is_left_out :
  let cfg := {| openrouter_api_key := "sk-test"; model := None;
                max_tokens := JInt 0; temperature := JNull;
                allowed_users := []; name := None |} in
  max_tokens cfg <> JNull /\
  request_data cfg "capital of France" !! "max_tokens" = None.
Proof. split; [discriminate | reflexivity]. Qed.

(** C8 (amended).  The object posted to the completion API always has the
    model identifier under "model" and the prompt under "messages"; it has
    "max_tokens" exactly when the configured value is truthy (set, and not
    zero or empty), and "temperature" exactly when a value is set, zero
    included; each carries the configured value. *)
Theorem completion_request_fields w cfg query :
  let data := request_data cfg query in
  (exists rest,
     fst (_call_openrouter w cfg query) =
       Post api_endpoint (request_headers cfg) data :: rest) /\
  data !! "model" = Some (JStr (default "perplexity/sonar-pro" (model cfg))) /\
  data !! "messages" =
    Some (JArr [JObj (<["content" := JStr query]>
                        (<["role" := JStr "user"]> ∅))]) /\
  (is_Some (data !! "max_tokens") <-> truthy (max_tokens cfg) = true) /\
  (forall v, data !! "max_tokens" = Some v -> v = max_tokens cfg) /\
  (is_Some (data !! "temperature") <-> temperature cfg <> JNull) /\
  (forall v, data !! "temperature" = Some v -> v = temperature cfg).
Proof.
  intros data.
  destruct (request_data_lookup cfg query) as (Hmodel & Hmsg & Hmax & Htemp).
  fold data in Hmodel, Hmsg, Hmax, Htemp.
  split; [|split; [exact Hmodel|split; [exact Hmsg|]]].
  - unfold _call_openrouter, perform. fold data.
    destruct (http_post w api_endpoint (request_headers cfg) data) as [resp|e].
    + rewrite bind_Ok. simpl. eauto.
    + simpl. eauto.
  - rewrite Hmax, Htemp. repeat split.
    + destruct (truthy (max_tokens cfg)); [reflexivity|]. intros [? ?]. discriminate.
    + intros ->. eauto.
    + destruct (truthy (max_tokens cfg)); congruence.
    + destruct (temperature cfg); try discriminate. intros [? ?]. discriminate.
    + destruct (temperature cfg); try congruence; eauto.
    + destruct (temperature cfg); congruence.
Qed.

(** ** The answer pipeline *)

Section Calls.

Context (P : call -> Prop).

Lemma calls_ret {A} (a : A) : Forall P (fst (ret a)).
Proof. constructor. Qed.

Lemma calls_lift {A} (r : outcome A) : Forall P (fst (lift r)).
Proof. constructor. Qed.

Lemma calls_perform {A} (c : call) (r : outcome A) :
  P c -> Forall P (fst (perform c r)).
Proof. intros H. repeat constructor. exact H. Qed.

Lemma calls_bind {A B} (m : M A) (f : A -> M B) :
  Forall P (fst m) -> (forall a, Forall P (fst (f a))) ->
  Forall P (fst (bind m f)).
Proof.
  destruct m as [t [a|e]]; simpl; intros Hm Hf; [|exact Hm].
  specialize (Hf a). destruct (f a) as [t' r]. simpl in *.
  apply Forall_app. split; assumption.
Qed.

Lemma calls_try_except {A} (m : M A) (h : exc -> M A) :
  Forall P (fst m) -> (forall e, Forall P (fst (h e))) ->
  Forall P (fst (try_except m h)).
Proof.
  destruct m as [t [a|e]]; simpl; intros Hm Hh; [exact Hm|].
  destruct (is_Exception e); [|exact Hm].
  specialize (Hh e). destruct (h e) as [t' r]. simpl in *.
  apply Forall_app. split; assumption.
Qed.

Lemma calls_try_finally {A} (m : M A) (c : M unit) :
  Forall P (fst m) -> Forall P (fst c) -> Forall P (fst (try_finally m c)).
Proof.
  destruct m as [t r], c as [t' r']. simpl. intros Hm Hc.
  apply Forall_app. split; assumption.
Qed.

End Calls.

(** Breaks a computation down to its calls. *)
Ltac calls :=
  repeat first
    [ apply calls_ret
    | apply calls_lift
    | apply calls_bind; [|intros ?]
    | apply calls_try_except; [|intros ?]
    | apply calls_try_finally
    | apply calls_perform
    | match goal with
      | |- Forall _ (fst (if ?b then _ else _)) => destruct b
      | |- Forall _ (fst (match ?x with _ => _ end)) => destruct x
      end ].

Lemma should_respond_calls w cfg evt :
  Forall reply_shape (fst (should_respond w cfg evt)).
Proof. unfold should_respond, log. calls; simpl; auto. Qed.

Lemma _call_openrouter_calls w cfg query :
  Forall reply_shape (fst (_call_openrouter w cfg query)).
Proof. unfold _call_openrouter, log. calls; simpl; auto. Qed.

Lemma on_message_calls w cfg evt :
  Forall reply_shape (fst (on_message w cfg evt)).
Proof.
  unfold on_message, log.
  calls; simpl; auto using should_respond_calls, _call_openrouter_calls.
  all: first [apply lookup_insert_eq | eexists; reflexivity].
Qed.

Lemma _call_openrouter_status w cfg query resp error_text :
  http_post w api_endpoint (request_headers cfg) (request_data cfg query)
    = Ok resp ->
  status resp <> 200%Z ->
  text resp = Ok error_text ->
  _call_openrouter w cfg query =
    ([Post api_endpoint (request_headers cfg) (request_data cfg query);
      Log Error ("OpenRouter API error: " +:+ pretty (status resp)
                 +:+ " - " +:+ error_text)],
     Ok (JStr (status_error resp))).
Proof.
  intros Hpost Hstatus Htext. unfold _call_openrouter, perform.
  rewrite Hpost, bind_Ok. apply Z.eqb_neq in Hstatus.
  rewrite Hstatus, Htext. reflexivity.
Qed.

Lemma on_message_status w cfg evt calls resp error_text :
  should_respond w cfg evt = (calls, Ok true) ->
  client_works w ->
  answered_with w cfg evt resp ->
  status resp <> 200%Z ->
  text resp = Ok error_text ->
  exists html,
    on_message w cfg evt =
      (calls ++
       [MarkRead;
        SetTyping (room_id evt) 30000;
        Post api_endpoint (request_headers cfg)
          (request_data cfg (extract_query (bot_name cfg) (body evt)));
        Log Error ("OpenRouter API error: " +:+ pretty (status resp)
                   +:+ " - " +:+ error_text);
        Respond (Content (answer_content (JStr (status_error resp)) html));
        SetTyping (room_id evt) 0],
       Ok tt).
Proof.
  intros Hgate (Hread & Htyping & Hrender & Hrespond) Hpost Hstatus Htext.
  destruct (Hrender (status_error resp)) as [html Hhtml].
  exists html. unfold on_message. rewrite Hgate, bind_Ok. cbn [negb].
  rewrite (_call_openrouter_status _ _ _ _ _ Hpost Hstatus Htext).
  unfold perform, lift. rewrite Hread, !Htyping.
  cbn [bind fst snd app]. rewrite Hhtml.
  cbn [bind fst snd app]. rewrite Hrespond. reflexivity.
Qed.

Lemma world0_works : client_works world0.
Proof. repeat split. intros s. eexists. reflexivity. Qed.

(** C6, as the claim states it, fails: the completion API answers with
    status 500 and a body that cannot be read as text.  Reading the body
    comes before the error text is returned, so [_call_openrouter] raises
    to [on_message], and the reply is the "Something went wrong" text,
    without the status. *)
Lemma unreadable_body_hides_status :
  let resp := {| status := 500;
                 text := Raise (Failure "cannot decode body");
                 json_body := Raise (Failure "not JSON") |} in
  let w := with_http world0 (Ok resp) in
  status resp <> 200%Z /\
  snd (_call_openrouter w cfg0 "capital of France")
    = Raise (Failure "cannot decode body") /\
  on_message w cfg0
    (message "@alice:example.org" "fxivity: capital of France" None)
  = ([MarkRead;
      SetTyping "!room:example.org" 30000;
      Post api_endpoint (request_headers cfg0)
        (request_data cfg0 "capital of France");
      Log Exception "Error handling message: cannot decode body";
      Respond (Text "Something went wrong: cannot decode body");
      SetTyping "!room:example.org" 0],
     Ok tt).
Proof. repeat split. discriminate. Qed.

(** C6 (amended).  When the completion API answers with a status other
    than 200 and a body that can be read as text, and the calls on the
    chat client (read receipt, typing, rendering, sending) succeed,
    [_call_openrouter] returns the text "Error: API returned status N"
    instead of raising, the reply sent has that text as its body, and
    [on_message] returns without an exception. *)
Theorem provider_error_is_reported w cfg evt calls resp error_text :
  should_respond w cfg evt = (calls, Ok true) ->
  client_works w ->
  answered_with w cfg evt resp ->
  status resp <> 200%Z ->
  text resp = Ok error_text ->
  snd (_call_openrouter w cfg (extract_query (bot_name cfg) (body evt)))
    = Ok (JStr (status_error resp)) /\
  (exists content,
     In (Respond (Content content)) (fst (on_message w cfg evt)) /\
     content !! "body" = Some (JStr (status_error resp))) /\
  snd (on_message w cfg evt) = Ok tt.
Proof.
  intros Hgate Hclient Hpost Hstatus Htext.
  destruct (on_message_status _ _ _ _ _ _ Hgate Hclient Hpost Hstatus Htext)
    as [html ->].
  rewrite (_call_openrouter_status _ _ _ _ _ Hpost Hstatus Htext).
  split; [reflexivity|split; [|reflexivity]].
  exists (answer_content (JStr (status_error resp)) html). split.
  - simpl. apply in_or_app. right. simpl. auto 10.
  - unfold answer_content. simplify_map_eq. reflexivity.
Qed.

Lemma provider_error_is_reported_witness :
  let evt := message "@alice:example.org" "fxivity: capital of France" None in
  (exists content,
     In (Respond (Content content)) (fst (on_message world0 cfg0 evt)) /\
     content !! "body" = Some (JStr "Error: API returned status 500")) /\
  snd (on_message world0 cfg0 evt) = Ok tt.
Proof.
  intros evt.
  apply (provider_error_is_reported world0 cfg0 evt []
           {| status := 500; text := Ok "server error";
              json_body := Raise (Failure "not JSON") |} "server error").
  - reflexivity.
  - exact world0_works.
  - reflexivity.
  - discriminate.
  - reflexivity.
Defined.

(** The whole run on status 500 with body "server error". *)
Example provider_error_run :
  on_message world0 cfg0
    (message "@alice:example.org" "fxivity: capital of France" None)
  = ([MarkRead;
      SetTyping "!room:example.org" 30000;
      Post api_endpoint (request_headers cfg0)
        (request_data cfg0 "capital of France");
      Log Error "OpenRouter API error: 500 - server error";
      Respond (Content (answer_content
                          (JStr "Error: API returned status 500")
                          "<p>Error: API returned status 500</p>"));
      SetTyping "!room:example.org" 0],
     Ok tt).
Proof. reflexivity. Qed.

(** The whole run on a successful completion: the end-to-end case of the
    specification. *)
Example answer_run :
  let completion :=
    JObj {[ "choices" :=
              JArr [JObj {[ "message" := JObj {[ "content" := JStr "4" ]} ]}] ]} in
  let w := with_http world0
             (Ok {| status := 200; text := Ok "";
                    json_body := Ok completion |}) in
  on_message w cfg0 (message "@alice:example.org" "fxivity what is 2+2?" None)
  = ([MarkRead;
      SetTyping "!room:example.org" 30000;
      Post api_endpoint (request_headers cfg0)
        (request_data cfg0 "what is 2+2?");
      Respond (Content (answer_content (JStr "4") "<p>4</p>"));
      SetTyping "!room:example.org" 0],
     Ok tt).
Proof. reflexivity. Qed.

(** The whole run on a 200 response without choices. *)
Example malformed_payload_run :
  let w := with_http world0
             (Ok {| status := 200; text := Ok "{}"; json_body := Ok (JObj ∅) |}) in
  on_message w cfg0 (message "@alice:example.org" "fxivity what is 2+2?" None)
  = ([MarkRead;
      SetTyping "!room:example.org" 30000;
      Post api_endpoint (request_headers cfg0)
        (request_data cfg0 "what is 2+2?");
      Log Exception "Error handling message: 'choices'";
      Respond (Text "Something went wrong: 'choices'");
      SetTyping "!room:example.org" 0],
     Ok tt).
Proof. reflexivity. Qed.

(** C7.  Once the gate has returned true, the last call [on_message]
    makes is [set_typing] with timeout 0, whatever the collaborators do:
    on a sent answer, on a reported provider error, and on an exception
    raised anywhere in the pipeline, caught or not. *)
Theorem typing_always_cleared w cfg evt calls :
  should_respond w cfg evt = (calls, Ok true) ->
  exists before,
    fst (on_message w cfg evt) = before ++ [SetTyping (room_id evt) 0].
Proof.
  intros Hgate. unfold on_message. rewrite Hgate, bind_Ok. cbn [negb fst].
  rewrite try_finally_calls, app_assoc. eauto.
Qed.

Lemma typing_always_cleared_witness :
  let w := with_http world0 (Raise (Failure "Cannot connect to host")) in
  let evt := message "@alice:example.org" "fxivity: capital of France" None in
  exists before,
    fst (on_message w cfg0 evt) = before ++ [SetTyping (room_id evt) 0].
Proof.
  intros w evt. apply (typing_always_cleared w cfg0 evt []). reflexivity.
Defined.

(** The whole run when the HTTP request raises. *)
Example transport_error_run :
  on_message (with_http world0 (Raise (Failure "Cannot connect to host"))) cfg0
    (message "@alice:example.org" "fxivity: capital of France" None)
  = ([MarkRead;
      SetTyping "!room:example.org" 30000;
      Post api_endpoint (request_headers cfg0)
        (request_data cfg0 "capital of France");
      Log Exception "Error handling message: Cannot connect to host";
      Respond (Text "Something went wrong: Cannot connect to host");
      SetTyping "!room:example.org" 0],
     Ok tt).
Proof. reflexivity. Qed.

(** ** Replies as parents of later messages *)




(** ** The query *)

Lemma slice_from_length m s :
  String.length (slice_from m s) = String.length s - m.
Proof.
  revert s. induction m as [|m IH]; intros s; simpl; [lia|].
  destruct s as [|c s]; simpl; [reflexivity | apply IH].
Qed.

Lemma starts_with_name_length name s :
  starts_with_name name s = true -> String.length name <= String.length s.
Proof.
  revert s. induction name as [|p name IH]; intros s; simpl; [lia|].
  destruct s as [|c s]; [discriminate|].
  intros H. apply andb_true_iff in H as [_ H]. apply IH in H. simpl. lia.
Qed.

Lemma trailer_length_le s : trailer_length s <= String.length s.
Proof.
  induction s as [|c s IH]; simpl; [lia|]. destruct (is_trailer c); lia.
Qed.

Lemma slice_from_trailer m s :
  slice_from (trailer_length (slice_from m s)) (slice_from m s) =
  slice_from (m + trailer_length (slice_from m s)) s.
Proof.
  revert s. induction m as [|m IH]; intros s; [reflexivity|].
  destruct s as [|c s]; [reflexivity | apply IH].
Qed.

Lemma name_and_trailer_le name s m :
  name_and_trailer name s = Some m -> m <= String.length s.
Proof.
  unfold name_and_trailer.
  destruct (starts_with_name name s) eqn:Hn; [|discriminate].
  intros [= <-]. apply starts_with_name_length in Hn.
  pose proof (trailer_length_le (slice_from (String.length name) s)) as Ht.
  rewrite slice_from_length in Ht. lia.
Qed.

Lemma name_occurrence_le name s m :
  name_occurrence name s = Some m -> m <= String.length s.
Proof.
  unfold name_occurrence. destruct s as [|c s].
  - apply name_and_trailer_le.
  - destruct (Ascii.eqb c "@" && starts_with_name name s).
    + destruct (name_and_trailer name s) as [k|] eqn:Hk; [|discriminate].
      intros [= <-]. apply name_and_trailer_le in Hk. simpl. lia.
    + apply name_and_trailer_le.
Qed.

(** The atoms of the name pattern, character by character. *)
Lemma lit_at_matches c : atom_matches true (Lit "@") c = Ascii.eqb c "@".
Proof. destruct c as [[] [] [] [] [] [] [] []]; vm_compute; reflexivity. Qed.

Lemma trailer_set_matches c :
  atom_matches true
    (CharSet [SSpace; SChar ":"; SChar ","; SChar "."; SChar "!"; SChar "?"]) c
  = is_trailer c.
Proof. destruct c as [[] [] [] [] [] [] [] []]; vm_compute; reflexivity. Qed.

(** The escaped name matches what starts with the name. *)
Lemma match_k_escape n name s k :
  match_k true n (escape name) s k =
    if starts_with_name name s then k (slice_from (String.length name) s)
    else None.
Proof.
  revert s. induction name as [|p name IH]; intros s; [reflexivity|].
  cbn [escape match_k]. destruct s as [|c s]; [reflexivity|].
  cbn [atom_matches starts_with_name String.length slice_from].
  unfold char_eq. destruct (Ascii.eqb (lower c) (lower p)); [apply IH | reflexivity].
Qed.

(** The star takes the whole trailer when what follows accepts it, and
    nothing when there is no trailer. *)
Lemma star_k_trailer s k rest :
  k (slice_from (trailer_length s) s) = Some rest ->
  star_k true
    (CharSet [SSpace; SChar ":"; SChar ","; SChar "."; SChar "!"; SChar "?"])
    s k = Some rest.
Proof.
  induction s as [|c s IH]; cbn [star_k trailer_length]; [auto|].
  rewrite trailer_set_matches. destruct (is_trailer c); [|auto].
  cbn [slice_from]. intros H. rewrite (IH H). reflexivity.
Qed.

Lemma star_k_no_trailer s k :
  trailer_length s = 0 ->
  star_k true
    (CharSet [SSpace; SChar ":"; SChar ","; SChar "."; SChar "!"; SChar "?"])
    s k = k s.
Proof.
  destruct s as [|c s]; cbn [star_k trailer_length]; [reflexivity|].
  rewrite trailer_set_matches. destruct (is_trailer c); [discriminate | reflexivity].
Qed.

Lemma accept_shorter adv s rest :
  String.length rest < String.length s -> accept adv s rest = Some rest.
Proof.
  intros H. unfold accept.
  destruct (Nat.eqb_spec (String.length rest) (String.length s)); [lia|].
  rewrite andb_false_r. reflexivity.
Qed.

(** The name and its trailer, matched after something was consumed. *)
Lemma match_k_name_later n name adv s0 s :
  String.length s < String.length s0 ->
  match_k true n
    (Seq (escape name)
       (Star (CharSet [SSpace; SChar ":"; SChar ","; SChar "."; SChar "!";
                       SChar "?"])))
    s (accept adv s0)
  = (fun m => slice_from m s) <$> name_and_trailer name s.
Proof.
  intros Hlen. cbn [match_k]. rewrite match_k_escape. unfold name_and_trailer.
  destruct (starts_with_name name s); [|reflexivity]. cbn [fmap option_fmap option_map].
  apply star_k_trailer. rewrite slice_from_trailer. apply accept_shorter.
  rewrite slice_from_length. lia.
Qed.

(** The name and its trailer, matched at the start of the attempt. *)
Lemma match_k_name_here n name adv s :
  match_k true n
    (Seq (escape name)
       (Star (CharSet [SSpace; SChar ":"; SChar ","; SChar "."; SChar "!";
                       SChar "?"])))
    s (accept adv s)
  = match name_and_trailer name s with
    | Some m => if adv && Nat.eqb m 0 then None else Some (slice_from m s)
    | None => None
    end.
Proof.
  cbn [match_k]. rewrite match_k_escape.
  destruct (name_and_trailer name s) as [m|] eqn:Hm;
    pose proof Hm as Hm'; unfold name_and_trailer in Hm';
    destruct (starts_with_name name s); try discriminate; [|reflexivity].
  injection Hm' as Hm'. apply name_and_trailer_le in Hm.
  destruct (adv && Nat.eqb m 0) eqn:Hadv.
  - apply andb_true_iff in Hadv as [-> Hz]. apply Nat.eqb_eq in Hz. subst m.
    assert (String.length name = 0) as Hn by lia.
    destruct name; [|discriminate]. cbn [String.length slice_from] in *.
    rewrite star_k_no_trailer by lia. unfold accept.
    rewrite Nat.eqb_refl. reflexivity.
  - apply star_k_trailer. rewrite slice_from_trailer, Hm'. unfold accept.
    destruct adv; [|reflexivity]. cbn [andb] in *.
    apply Nat.eqb_neq in Hadv. rewrite slice_from_length.
    destruct (Nat.eqb_spec (String.length s - m) (String.length s)); [lia|].
    reflexivity.
Qed.

(** One attempt of the name pattern, by the occurrence of the name. *)
Lemma match_at_name_pattern n name adv s :
  match_at true n (name_pattern name) adv s =
    match name_occurrence name s with
    | Some m => if adv && Nat.eqb m 0 then None else Some (slice_from m s)
    | None => None
    end.
Proof.
  unfold match_at, name_pattern. cbn [match_k].
  change (match_k true n (escape name) ?x
            (fun s1 => star_k true ?a s1 ?k))
    with (match_k true n (Seq (escape name) (Star a)) x k).
  destruct s as [|c s].
  - rewrite match_k_name_here. reflexivity.
  - rewrite lit_at_matches. unfold name_occurrence.
    destruct (Ascii.eqb c "@"); cbn [andb].
    + rewrite match_k_name_later by (simpl; lia).
      unfold name_and_trailer at 1 2.
      destruct (starts_with_name name s); cbn [fmap option_fmap option_map].
      * rewrite andb_false_r. reflexivity.
      * apply match_k_name_here.
    + apply match_k_name_here.
Qed.

Lemma found_at_name_pattern n name s :
  found_at true n (name_pattern name) s =
    match name_occurrence name s with
    | Some (S k) => (false, Some (S k))
    | Some O => (true, None)
    | None => (false, None)
    end.
Proof.
  unfold found_at. rewrite !match_at_name_pattern.
  destruct (name_occurrence name s) as [m|] eqn:Hm; [|reflexivity].
  apply name_occurrence_le in Hm. cbn [andb]. rewrite slice_from_length.
  destruct m as [|k].
  - rewrite Nat.sub_0_r, Nat.eqb_refl. reflexivity.
  - destruct (Nat.eqb_spec (String.length s - S k) (String.length s)); [lia|].
    f_equal. f_equal. lia.
Qed.

(** [re.sub] of the name pattern by the empty string removes the
    occurrences of the name. *)
Lemma re_sub_name_pattern name s :
  re_sub true (name_pattern name) "" s = remove_names name 0 s.
Proof.
  unfold re_sub. generalize (String.length s) as n. intros n.
  generalize 0 as skip. induction s as [|c s IH]; intros skip.
  - destruct skip; [|reflexivity].
    cbn [sub_from]. rewrite found_at_name_pattern.
    destruct (name_occurrence name "") as [[|k]|]; reflexivity.
  - destruct skip as [|skip]; cbn [sub_from remove_names]; [|apply IH].
    rewrite found_at_name_pattern.
    destruct (name_occurrence name (String c s)) as [[|k]|];
      cbn [String.append]; rewrite IH; reflexivity.
Qed.

(** C5, as the claim states it, fails: in "fxivityish hello" the name is
    not a standalone token, the gate's name test does not match and the
    mention pattern has no occurrence to remove, and yet the query loses
    the name. *)
Lemma embedded_name_is_removed :
  mentions "fxivity" "fxivityish hello" = false /\
  spec_extract_query "fxivity" "fxivityish hello" = "fxivityish hello" /\
  extract_query "fxivity" "fxivityish hello" = "ish hello".
Proof. repeat split. Qed.

(** C5 (amended).  When the body starts with the command token, the query
    is what follows the token, trimmed.  Otherwise it is the body, trimmed,
    without the occurrences of the bot name found from left to right: the
    name in any case, standalone or inside a longer word, with the "@"
    directly before it and the run of whitespace and [:,.!?] directly
    after it.  Both "!sonar capital of France" and
    "fxivity: capital of France" give "capital of France". *)
Theorem extract_query_spec :
  (forall bot_name rest,
     extract_query bot_name ("!sonar" +:+ rest) = strip rest) /\
  (forall bot_name body,
     extract_query bot_name body =
       if startswith body "!sonar" then strip (slice_from 6 body)
       else strip (remove_names bot_name 0 body)) /\
  extract_query "fxivity" "!sonar capital of France" = "capital of France" /\
  extract_query "fxivity" "fxivity: capital of France" = "capital of France".
Proof.
  split; [|split; [|split]]; try reflexivity.
  intros bot_name body. unfold extract_query.
  rewrite re_sub_name_pattern. reflexivity.
Qed.

(** * Further properties of the gate *)

(** X1.  The gate answers true only for a plain-text message of another
    sender whose body does not start with "!" and whose sender the
    allow-list admits: no rule lets a sender through that [user_allowed]
    turns down. *)
Theorem gate_true_only_for_allowed w cfg evt :
  snd (should_respond w cfg evt) = Ok true ->
  sender evt <> mxid w /\
  startswith (body evt) "!" = false /\
  msgtype evt = TEXT /\
  user_allowed cfg (sender evt) = Ok true.
Proof.
  unfold should_respond.
  destruct (String.eqb_spec (sender evt) (mxid w)) as [|Hs]; [discriminate|].
  destruct (startswith (body evt) "!"); [discriminate|].
  destruct (msgtype evt); try discriminate. cbn [orb negb is_TEXT].
  intros H. repeat split; [exact Hs|]. revert H.
  destruct (mentions (bot_name cfg) (body evt) || startswith (body evt) "!sonar");
    [exact (fun H => H)|].
  unfold perform, lift.
  destruct (user_allowed cfg (sender evt)) as [[|]|e0] eqn:Hu; [reflexivity| |].
  - destruct (get_joined_members w (room_id evt)) as [n|e]; simpl.
    + destruct (Nat.eqb n 2); simpl; [discriminate|].
      destruct (reply_to evt); simpl; [|discriminate].
      destruct (get_event w _ _) as [p|e]; simpl.
      * destruct (is_continuation w p); simpl; discriminate.
      * destruct (is_Exception e); simpl; discriminate.
    + destruct (is_Exception e); simpl; [|discriminate].
      destruct (reply_to evt); simpl; [|discriminate].
      destruct (get_event w _ _) as [p|e']; simpl.
      * destruct (is_continuation w p); simpl; discriminate.
      * destruct (is_Exception e'); simpl; discriminate.
  - destruct (get_joined_members w (room_id evt)) as [n|e]; simpl.
    + destruct (Nat.eqb n 2); simpl.
      * destruct (is_Exception e0); simpl; [|discriminate].
        destruct (reply_to evt); simpl; [|discriminate].
        destruct (get_event w _ _) as [p|e]; simpl.
        -- destruct (is_continuation w p); simpl; [|discriminate].
           destruct (is_Exception e0); simpl; discriminate.
        -- destruct (is_Exception e); simpl; discriminate.
      * destruct (reply_to evt); simpl; [|discriminate].
        destruct (get_event w _ _) as [p|e]; simpl.
        -- destruct (is_continuation w p); simpl; [|discriminate].
           destruct (is_Exception e0); simpl; discriminate.
        -- destruct (is_Exception e); simpl; discriminate.
    + destruct (is_Exception e); simpl; [|discriminate].
      destruct (reply_to evt); simpl; [|discriminate].
      destruct (get_event w _ _) as [p|e']; simpl.
      * destruct (is_continuation w p); simpl; [|discriminate].
        destruct (is_Exception e0); simpl; discriminate.
      * destruct (is_Exception e'); simpl; discriminate.
Qed.

Lemma gate_true_only_for_allowed_witness :
  let evt := message "@alice:example.org" "hi fxivity!" None in
  sender evt <> mxid world0 /\
  startswith (body evt) "!" = false /\
  msgtype evt = TEXT /\
  user_allowed cfg0 (sender evt) = Ok true.
Proof.
  intros evt. apply (gate_true_only_for_allowed world0 cfg0 evt). reflexivity.
Defined.

Lemma should_respond_gate_calls w cfg evt :
  Forall (gate_call evt) (fst (should_respond w cfg evt)).
Proof.
  unfold should_respond, log.
  destruct (reply_to evt) as [parent_id|] eqn:Hr; calls; simpl; auto.
Qed.

(** X2.  The gate only looks things up: every call it makes is the member
    lookup in the room of the message, the fetch of the event the message
    replies to, or a warning in the log, and there are at most three.  It
    never marks read, types, posts or replies. *)
Theorem gate_only_looks_up w cfg evt :
  Forall (gate_call evt) (fst (should_respond w cfg evt)) /\
  length (fst (should_respond w cfg evt)) <= 3.
Proof.
  split; [apply should_respond_gate_calls|].
  unfold should_respond, log, perform, lift.
  - destruct (_ || _ || _); [simpl; lia|].
    destruct (_ || _); [simpl; lia|].
    destruct (get_joined_members w (room_id evt)) as [n|e]; simpl.
    + destruct (Nat.eqb n 2); simpl.
      * destruct (user_allowed cfg (sender evt)) as [b|e]; simpl; [lia|].
        destruct (is_Exception e); simpl; [|lia].
        destruct (reply_to evt); simpl; [|lia].
        destruct (get_event w _ _) as [p|e']; simpl.
        -- destruct (is_continuation w p); simpl; [|lia].
           destruct (is_Exception e); simpl; lia.
        -- destruct (is_Exception e'); simpl; lia.
      * destruct (reply_to evt); simpl; [|lia].
        destruct (get_event w _ _) as [p|e']; simpl.
        -- destruct (is_continuation w p); simpl; [|lia].
           destruct (user_allowed cfg (sender evt)) as [b|e]; simpl; [lia|].
           destruct (is_Exception e); simpl; lia.
        -- destruct (is_Exception e'); simpl; lia.
    + destruct (is_Exception e); simpl; [|lia].
      destruct (reply_to evt); simpl; [|lia].
      destruct (get_event w _ _) as [p|e']; simpl.
      * destruct (is_continuation w p); simpl; [|lia].
        destruct (user_allowed cfg (sender evt)) as [b|e0]; simpl; [lia|].
        destruct (is_Exception e0); simpl; lia.
      * destruct (is_Exception e'); simpl; lia.
Qed.

(** X3.  A plain-text message of another sender whose body does not
    start with "!" and names the bot is decided by the allow-list alone
    and costs no call: neither the room nor a parent is looked up.  When
    the allow-list check raises on such a message, on an entry that [re]
    rejects, nothing catches it: [on_message] raises the same exception
    before its [try], without a reply and without a call. *)
Theorem direct_address_rule w cfg evt :
  sender evt <> mxid w ->
  startswith (body evt) "!" = false ->
  msgtype evt = TEXT ->
  mentions (bot_name cfg) (body evt) = true ->
  should_respond w cfg evt = ([], user_allowed cfg (sender evt)) /\
  (forall e,
     user_allowed cfg (sender evt) = Raise e ->
     on_message w cfg evt = ([], Raise e)).
Proof.
  intros Hs Hbang Ht Hm.
  assert (Hgate : should_respond w cfg evt = ([], user_allowed cfg (sender evt))).
  { unfold should_respond. apply String.eqb_neq in Hs.
    rewrite Hs, Hbang, Ht, Hm. reflexivity. }
  split; [exact Hgate|].
  intros e He. unfold on_message. rewrite Hgate, He. reflexivity.
Qed.

Lemma direct_address_rule_witness :
  let cfg := {| openrouter_api_key := "sk-test"; model := None;
                max_tokens := JNull; temperature := JNull;
                allowed_users := [Rejected "unbalanced parenthesis at position 0"];
                name := None |} in
  let evt := message "@alice:example.org" "fxivity hello" None in
  on_message world0 cfg evt
    = ([], Raise (ReError "unbalanced parenthesis at position 0")).
Proof.
  intros cfg evt.
  apply (proj2 (direct_address_rule world0 cfg evt
                  ltac:(discriminate) eq_refl eq_refl eq_refl)).
  reflexivity.
Defined.

(** X4.  In a room of exactly two members, take a plain-text message of
    the other member whose body neither starts with "!" nor names the bot.
    When the allow-list check returns, its answer is the gate's, after the
    one member lookup, and the event the message may reply to is not
    fetched.  When the check raises, the [try] swallows the exception:
    the gate goes on to the reply-chain rule, fetching the parent when the
    message replies to one, and does not answer true. *)
Theorem direct_message_rule w cfg evt :
  sender evt <> mxid w ->
  startswith (body evt) "!" = false ->
  msgtype evt = TEXT ->
  mentions (bot_name cfg) (body evt) = false ->
  get_joined_members w (room_id evt) = Ok 2 ->
  (forall allowed,
     user_allowed cfg (sender evt) = Ok allowed ->
     should_respond w cfg evt =
       ([GetJoinedMembers (room_id evt)], Ok allowed)) /\
  (forall e,
     user_allowed cfg (sender evt) = Raise e ->
     should_respond w cfg evt =
       (GetJoinedMembers (room_id evt) :: fst (reply_rule w cfg evt),
        snd (reply_rule w cfg evt)) /\
     snd (should_respond w cfg evt) <> Ok true).
Proof.
  intros Hs Hbang Ht Hm Hn. split.
  - intros allowed Hu.
    assert (Hsonar : startswith (body evt) "!sonar" = false).
    { destruct (startswith (body evt) "!sonar") eqn:E; [|reflexivity].
      apply startswith_sonar_bang in E. congruence. }
    unfold should_respond, perform. apply String.eqb_neq in Hs.
    rewrite Hs, Hbang, Ht, Hm, Hsonar, Hn, Hu. reflexivity.
  - intros e Hu.
    assert (Hreach : reaches_reply_rule w cfg evt).
    { repeat split; auto. unfold dm_undecided. rewrite Hn. eauto. }
    rewrite (should_respond_reply_rule _ _ _ Hreach).
    split; [reflexivity|]. cbn [snd]. unfold reply_rule. rewrite Hu.
    destruct (reply_to evt) as [parent_id|]; [|discriminate].
    destruct (get_event w (room_id evt) parent_id) as [parent_event|e1].
    + destruct (is_continuation w parent_event); discriminate.
    + destruct (is_Exception e1); discriminate.
Qed.

Lemma direct_message_rule_witness :
  let w := {| mxid := mxid world0;
              get_joined_members := fun _ => Ok 2;
              get_event := get_event world0;
              mark_read := mark_read world0;
              set_typing := set_typing world0;
              http_post := http_post world0;
              render := render world0;
              respond := respond world0 |} in
  let evt := message "@alice:example.org" "what is 2+2?" (Some "$earlier") in
  let cfg := {| openrouter_api_key := "sk-test"; model := None;
                max_tokens := JNull; temperature := JNull;
                allowed_users := [Rejected "nothing to repeat at position 0"];
                name := Some "fxivity" |} in
  should_respond w cfg0 evt = ([GetJoinedMembers "!room:example.org"], Ok true) /\
  should_respond w cfg evt =
    (GetJoinedMembers (room_id evt) :: fst (reply_rule w cfg evt),
     snd (reply_rule w cfg evt)) /\
  snd (should_respond w cfg evt) <> Ok true.
Proof.
  intros w evt cfg. split.
  - apply (proj1 (direct_message_rule w cfg0 evt
                    ltac:(discriminate) eq_refl eq_refl eq_refl eq_refl)).
    reflexivity.
  - apply (proj2 (direct_message_rule w cfg evt
                    ltac:(discriminate) eq_refl eq_refl eq_refl eq_refl)
             (ReError "nothing to repeat at position 0")).
    reflexivity.
Defined.

(** X5.  A lookup that fails with an [Exception] never makes the gate
    raise.  What the gate raises is either no [Exception] (a cancellation
    passing through) or the exception of the allow-list check on a message
    that names the bot. *)
Theorem gate_raises_only w cfg evt e :
  snd (should_respond w cfg evt) = Raise e ->
  is_Exception e = false \/
  (mentions (bot_name cfg) (body evt) = true /\
   user_allowed cfg (sender evt) = Raise e).
Proof.
  unfold should_respond.
  destruct (_ || _ || _) eqn:Hrule1; [discriminate|].
  apply orb_false_iff in Hrule1 as [Hrule1 _].
  apply orb_false_iff in Hrule1 as [_ Hbang].
  assert (Hsonar : startswith (body evt) "!sonar" = false).
  { destruct (startswith (body evt) "!sonar") eqn:E; [|reflexivity].
    apply startswith_sonar_bang in E. congruence. }
  rewrite Hsonar, orb_false_r.
  destruct (mentions (bot_name cfg) (body evt)); [simpl; auto|].
  unfold perform, lift, log. intros H. left. revert H.
  destruct (get_joined_members w (room_id evt)) as [n|e1]; simpl.
  - destruct (Nat.eqb n 2); simpl.
    + destruct (user_allowed cfg (sender evt)) as [b|e2] eqn:Hu; simpl;
        [discriminate|].
      rewrite (user_allowed_raises _ _ _ Hu). simpl.
      destruct (reply_to evt); simpl; [|discriminate].
      destruct (get_event w _ _) as [p|e3]; simpl.
      * destruct (is_continuation w p); simpl; [|discriminate].
        rewrite (user_allowed_raises _ _ _ Hu). simpl. discriminate.
      * destruct (is_Exception e3) eqn:He3; simpl; [discriminate|].
        intros [= <-]. exact He3.
    + destruct (reply_to evt); simpl; [|discriminate].
      destruct (get_event w _ _) as [p|e3]; simpl.
      * destruct (is_continuation w p); simpl; [|discriminate].
        destruct (user_allowed cfg (sender evt)) as [b|e2] eqn:Hu; simpl;
          [discriminate|].
        rewrite (user_allowed_raises _ _ _ Hu). simpl. discriminate.
      * destruct (is_Exception e3) eqn:He3; simpl; [discriminate|].
        intros [= <-]. exact He3.
  - destruct (is_Exception e1) eqn:He1; simpl.
    + destruct (reply_to evt); simpl; [|discriminate].
      destruct (get_event w _ _) as [p|e3]; simpl.
      * destruct (is_continuation w p); simpl; [|discriminate].
        destruct (user_allowed cfg (sender evt)) as [b|e2] eqn:Hu; simpl;
          [discriminate|].
        rewrite (user_allowed_raises _ _ _ Hu). simpl. discriminate.
      * destruct (is_Exception e3) eqn:He3; simpl; [discriminate|].
        intros [= <-]. exact He3.
    + intros [= <-]. exact He1.
Qed.

Lemma gate_raises_only_witness :
  let w := {| mxid := mxid world0;
              get_joined_members := fun _ => Raise Cancelled;
              get_event := get_event world0;
              mark_read := mark_read world0;
              set_typing := set_typing world0;
              http_post := http_post world0;
              render := render world0;
              respond := respond world0 |} in
  let evt := message "@alice:example.org" "what is 2+2?" None in
  is_Exception Cancelled = false \/
  (mentions (bot_name cfg0) (body evt) = true /\
   user_allowed cfg0 (sender evt) = Raise Cancelled).
Proof.
  intros w evt. apply (gate_raises_only w cfg0 evt Cancelled). reflexivity.
Defined.

(** * Further properties of the allow-list *)

(** X6.  [user_allowed] raises exactly when the list holds an entry that
    [re] rejects and no entry before it matches; the exception is the
    [re.error] of that entry.  A rejected entry behind a matching one is
    never noticed. *)
Theorem user_allowed_error cfg mxid e :
  user_allowed cfg mxid = Raise e <->
  exists before msg after,
    allowed_users cfg = before ++ Rejected msg :: after /\
    Forall (no_match mxid) before /\
    e = ReError msg.
Proof.
  unfold user_allowed.
  assert (H : forall ps,
    first_match ps mxid = Raise e <->
    exists before msg after,
      ps = before ++ Rejected msg :: after /\
      Forall (no_match mxid) before /\ e = ReError msg).
  { induction ps as [|q rest IH]; simpl.
    - split; [discriminate|].
      intros (before & ? & ? & Heq & _). destruct before; discriminate.
    - destruct (pattern_match q mxid) as [[|]|e0] eqn:Hq.
      + split; [discriminate|].
        intros (before & msg & after & Heq & Hbefore & _).
        destruct before as [|q' before]; simpl in Heq; inversion Heq; subst.
        * simpl in Hq. discriminate.
        * inversion Hbefore; subst. unfold no_match in *. congruence.
      + rewrite IH. split.
        * intros (before & msg & after & -> & Hbefore & He).
          exists (q :: before), msg, after. repeat split; auto.
        * intros (before & msg & after & Heq & Hbefore & He).
          destruct before as [|q' before]; simpl in Heq; inversion Heq; subst.
          -- simpl in Hq. discriminate.
          -- inversion Hbefore; subst. exists before, msg, after. auto.
      + split.
        * intros [= <-]. destruct q as [r|msg]; simpl in Hq; [discriminate|].
          injection Hq as <-. exists [], msg, rest. auto.
        * intros (before & msg & after & Heq & Hbefore & ->).
          destruct before as [|q' before]; simpl in Heq; inversion Heq; subst.
          -- simpl in Hq. congruence.
          -- inversion Hbefore; subst. unfold no_match in *. congruence. }
  destruct (allowed_users cfg) as [|q rest] eqn:Hl.
  - split; [discriminate|].
    intros (before & ? & ? & Heq & _). destruct before; discriminate.
  - apply H.
Qed.

(** X7.  Entries added at the end of a non-empty allow-list never take
    access away: whoever the list admits, the longer list admits. *)
Theorem allow_list_append cfg cfg' mxid more :
  allowed_users cfg <> [] ->
  allowed_users cfg' = allowed_users cfg ++ more ->
  user_allowed cfg mxid = Ok true ->
  user_allowed cfg' mxid = Ok true.
Proof.
  intros Hne Happ Hok.
  apply (proj1 (user_allowed_iff cfg mxid)) in Hok
    as [Hnil|(before & p & after & Heq & Hbefore & Hp)]; [contradiction|].
  apply (proj1 (user_allowed_iff cfg' mxid)). right.
  exists before, p, (after ++ more). repeat split; auto.
  rewrite Happ, Heq, <- app_assoc. reflexivity.
Qed.

Lemma allow_list_append_witness :
  let alice := Compiles (escape "@alice:example.org") in
  let only ps := {| openrouter_api_key := "sk-test"; model := None;
                    max_tokens := JNull; temperature := JNull;
                    allowed_users := ps; name := None |} in
  user_allowed (only [alice; Rejected "bad escape"]) "@alice:example.org"
    = Ok true.
Proof.
  intros alice only.
  apply (allow_list_append (only [alice]) (only [alice; Rejected "bad escape"])
           "@alice:example.org" [Rejected "bad escape"]);
    [discriminate | reflexivity | reflexivity].
Defined.

(** * Further properties of the completion call *)

Lemma _call_openrouter_200 w cfg query resp payload :
  http_post w api_endpoint (request_headers cfg) (request_data cfg query)
    = Ok resp ->
  status resp = 200%Z ->
  json_body resp = Ok payload ->
  _call_openrouter w cfg query =
    ([Post api_endpoint (request_headers cfg) (request_data cfg query)],
     first_content payload).
Proof.
  intros Hpost Hstatus Hjson. unfold _call_openrouter, perform, lift.
  rewrite Hpost, bind_Ok, Hstatus, Hjson. cbn [negb Z.eqb Pos.eqb].
  unfold first_content. cbn [bind fst snd app].
  destruct (getitem payload "choices") as [choices|e]; [|reflexivity].
  cbn [bind fst snd app].
  destruct (getitem0 choices) as [choice|e]; [|reflexivity].
  cbn [bind fst snd app].
  destruct (getitem choice "message") as [message|e]; [|reflexivity].
  cbn [bind fst snd app].
  destruct (getitem message "content"); reflexivity.
Qed.

Lemma first_content_spec payload :
  (forall v, first_content payload = Ok v <-> completion_content payload = Some v) /\
  (forall e, first_content payload = Raise e -> is_Exception e = true).
Proof.
  unfold first_content, completion_content.
  destruct payload as [| | | | s |l|o]; simpl;
    try (split; [intros v; split; discriminate | intros e [= <-]; reflexivity]).
  destruct (o !! "choices") as [choices|]; simpl;
    [|split; [intros v; split; discriminate | intros e [= <-]; reflexivity]].
  destruct choices as [| | | | s |l|choice_]; simpl;
    try (split; [intros v; split; discriminate | intros e [= <-]; reflexivity]).
  - destruct s; simpl;
      (split; [intros v; split; discriminate | intros e [= <-]; reflexivity]).
  - destruct l as [|choice l']; simpl;
      [split; [intros v; split; discriminate | intros e [= <-]; reflexivity]|].
    destruct choice as [| | | | s |l|c]; simpl;
      try (split; [intros v; split; discriminate | intros e [= <-]; reflexivity]).
    destruct (c !! "message") as [message|]; simpl;
      [|split; [intros v; split; discriminate | intros e [= <-]; reflexivity]].
    destruct message as [| | | | s |l|m]; simpl;
      try (split; [intros v; split; discriminate | intros e [= <-]; reflexivity]).
    destruct (m !! "content") as [v0|]; simpl.
    + split; [intros v; split; congruence | discriminate].
    + split; [intros v; split; discriminate | intros e [= <-]; reflexivity].
Qed.

(** X8.  On a response with status 200 [_call_openrouter] makes the one
    request, does not read the body as text and logs nothing.  It returns
    [choices[0].message.content] when the payload is an object whose
    "choices" is a list that starts with an object whose "message" is an
    object with a "content"; on every other payload it raises a
    [KeyError], [IndexError] or [TypeError], all of which [on_message]
    catches. *)
Theorem completion_answer w cfg query resp payload :
  http_post w api_endpoint (request_headers cfg) (request_data cfg query)
    = Ok resp ->
  status resp = 200%Z ->
  json_body resp = Ok payload ->
  fst (_call_openrouter w cfg query) =
    [Post api_endpoint (request_headers cfg) (request_data cfg query)] /\
  (forall v,
     snd (_call_openrouter w cfg query) = Ok v <->
     completion_content payload = Some v) /\
  (forall e,
     snd (_call_openrouter w cfg query) = Raise e -> is_Exception e = true).
Proof.
  intros Hpost Hstatus Hjson.
  rewrite (_call_openrouter_200 _ _ _ _ _ Hpost Hstatus Hjson).
  split; [reflexivity | apply first_content_spec].
Qed.

Lemma completion_answer_witness :
  let payload :=
    JObj {[ "choices" :=
              JArr [JObj {[ "message" := JObj {[ "content" := JStr "4" ]} ]}] ]} in
  let w := with_http world0
             (Ok {| status := 200; text := Ok ""; json_body := Ok payload |}) in
  snd (_call_openrouter w cfg0 "what is 2+2?") = Ok (JStr "4").
Proof.
  intros payload w.
  apply (proj1 (proj2 (completion_answer w cfg0 "what is 2+2?"
                         {| status := 200; text := Ok "";
                            json_body := Ok payload |} payload
                         eq_refl eq_refl eq_refl))).
  reflexivity.
Defined.

(** * Further properties of the pipeline *)

(** The calls of [on_message] after a true gate, by the outcome of the
    steps inside the [try]. *)
Lemma on_message_gated w cfg evt calls :
  should_respond w cfg evt = (calls, Ok true) ->
  on_message w cfg evt =
    (calls ++
     fst (try_finally
            (try_except
               (run perform MarkRead (mark_read w) in
                run perform (SetTyping (room_id evt) 30000)
                            (set_typing w (room_id evt) 30000) in
                let* response :=
                  _call_openrouter w cfg
                    (extract_query (bot_name cfg) (body evt)) in
                let* formatted_body := lift (render w response) in
                perform (Respond (Content (answer_content response formatted_body)))
                        (respond w (Content (answer_content response formatted_body))))
               (fun e =>
                  run log Exception ("Error handling message: " +:+ exc_str e) in
                  perform (Respond (Text ("Something went wrong: " +:+ exc_str e)))
                          (respond w (Text ("Something went wrong: " +:+ exc_str e)))))
            (perform (SetTyping (room_id evt) 0) (set_typing w (room_id evt) 0))),
     snd (try_finally
            (try_except
               (run perform MarkRead (mark_read w) in
                run perform (SetTyping (room_id evt) 30000)
                            (set_typing w (room_id evt) 30000) in
                let* response :=
                  _call_openrouter w cfg
                    (extract_query (bot_name cfg) (body evt)) in
                let* formatted_body := lift (render w response) in
                perform (Respond (Content (answer_content response formatted_body)))
                        (respond w (Content (answer_content response formatted_body))))
               (fun e =>
                  run log Exception ("Error handling message: " +:+ exc_str e) in
                  perform (Respond (Text ("Something went wrong: " +:+ exc_str e)))
                          (respond w (Text ("Something went wrong: " +:+ exc_str e)))))
            (perform (SetTyping (room_id evt) 0) (set_typing w (room_id evt) 0)))).
Proof.
  intros Hgate. unfold on_message. rewrite Hgate, bind_Ok. reflexivity.
Qed.

(** X9.  When the completion API answers 200 with a payload whose first
    choice has the string [answer] as its content, and the chat client
    works, [on_message] marks the message read, starts typing, makes the
    one request, sends one notice whose body is [answer] and whose
    formatted body is its rendering, with the HTML format and the marker,
    clears typing and returns. *)
Theorem answer_is_sent w cfg evt calls resp payload answer :
  should_respond w cfg evt = (calls, Ok true) ->
  client_works w ->
  answered_with w cfg evt resp ->
  status resp = 200%Z ->
  json_body resp = Ok payload ->
  completion_content payload = Some (JStr answer) ->
  exists html content,
    render w (JStr answer) = Ok html /\
    on_message w cfg evt =
      (calls ++
       [MarkRead;
        SetTyping (room_id evt) 30000;
        Post api_endpoint (request_headers cfg)
          (request_data cfg (extract_query (bot_name cfg) (body evt)));
        Respond (Content content);
        SetTyping (room_id evt) 0],
       Ok tt) /\
    content !! "msgtype" = Some (JStr "m.notice") /\
    content !! "body" = Some (JStr answer) /\
    content !! "format" = Some (JStr "org.matrix.custom.html") /\
    content !! "formatted_body" = Some (JStr html) /\
    content !! marker = Some (JBool true).
Proof.
  intros Hgate (Hread & Htyping & Hrender & Hrespond) Hpost Hstatus Hjson Hans.
  destruct (Hrender answer) as [html Hhtml].
  exists html, (answer_content (JStr answer) html).
  split; [exact Hhtml|]. split.
  - rewrite (on_message_gated _ _ _ _ Hgate).
    rewrite (_call_openrouter_200 _ _ _ _ _ Hpost Hstatus Hjson).
    apply (proj1 (first_content_spec payload)) in Hans. rewrite Hans.
    unfold perform, lift. rewrite Hread, !Htyping.
    cbn [bind fst snd app]. rewrite Hhtml.
    cbn [bind fst snd app]. rewrite Hrespond. reflexivity.
  - unfold answer_content, marker. repeat split; simplify_map_eq; reflexivity.
Qed.

Lemma answer_is_sent_witness :
  let payload :=
    JObj {[ "choices" :=
              JArr [JObj {[ "message" := JObj {[ "content" := JStr "4" ]} ]}] ]} in
  let resp := {| status := 200; text := Ok ""; json_body := Ok payload |} in
  let evt := message "@alice:example.org" "fxivity what is 2+2?" None in
  exists html content,
    render (with_http world0 (Ok resp)) (JStr "4") = Ok html /\
    on_message (with_http world0 (Ok resp)) cfg0 evt =
      ([] ++
       [MarkRead;
        SetTyping (room_id evt) 30000;
        Post api_endpoint (request_headers cfg0)
          (request_data cfg0 (extract_query (bot_name cfg0) (body evt)));
        Respond (Content content);
        SetTyping (room_id evt) 0],
       Ok tt) /\
    content !! "msgtype" = Some (JStr "m.notice") /\
    content !! "body" = Some (JStr "4") /\
    content !! "format" = Some (JStr "org.matrix.custom.html") /\
    content !! "formatted_body" = Some (JStr html) /\
    content !! marker = Some (JBool true).
Proof.
  intros payload resp evt.
  apply (answer_is_sent (with_http world0 (Ok resp)) cfg0 evt [] resp payload "4").
  - reflexivity.
  - repeat split. intros s. eexists. reflexivity.
  - reflexivity.
  - reflexivity.
  - reflexivity.
  - reflexivity.
Defined.

(** X10.  When the completion call raises an [Exception] (the request
    fails, the body cannot be read or decoded, or the payload has no first
    choice with a message and a content) and the chat client works,
    [on_message] logs it, answers with the plain text
    "Something went wrong: " followed by the text of the exception, clears
    typing and returns: the exception does not leave [on_message]. *)
Theorem failure_is_reported w cfg evt calls request e :
  should_respond w cfg evt = (calls, Ok true) ->
  client_works w ->
  _call_openrouter w cfg (extract_query (bot_name cfg) (body evt))
    = (request, Raise e) ->
  is_Exception e = true ->
  on_message w cfg evt =
    (calls ++
     [MarkRead; SetTyping (room_id evt) 30000] ++ request ++
     [Log Exception ("Error handling message: " +:+ exc_str e);
      Respond (Text ("Something went wrong: " +:+ exc_str e));
      SetTyping (room_id evt) 0],
     Ok tt).
Proof.
  intros Hgate (Hread & Htyping & _ & Hrespond) Hcall He.
  rewrite (on_message_gated _ _ _ _ Hgate), Hcall.
  unfold perform, log. rewrite Hread, !Htyping.
  cbn [bind fst snd app try_except]. rewrite He.
  cbn [bind fst snd app try_finally]. rewrite Hrespond.
  rewrite <- !app_assoc. reflexivity.
Qed.

Lemma failure_is_reported_witness :
  let w := with_http world0
             (Ok {| status := 200; text := Ok "[]"; json_body := Ok (JArr []) |}) in
  let evt := message "@alice:example.org" "fxivity what is 2+2?" None in
  on_message w cfg0 evt =
    ([] ++
     [MarkRead; SetTyping (room_id evt) 30000] ++
     [Post api_endpoint (request_headers cfg0) (request_data cfg0 "what is 2+2?")] ++
     [Log Exception
        "Error handling message: list indices must be integers or slices, not str";
      Respond (Text
        "Something went wrong: list indices must be integers or slices, not str");
      SetTyping (room_id evt) 0],
     Ok tt).
Proof.
  intros w evt.
  apply (failure_is_reported w cfg0 evt []
           [Post api_endpoint (request_headers cfg0)
              (request_data cfg0 "what is 2+2?")]
           (TypeError "list indices must be integers or slices, not str")).
  - reflexivity.
  - repeat split. intros s. eexists. reflexivity.
  - reflexivity.
  - reflexivity.
Defined.

(** X11.  The read receipt is not best effort: when [mark_read] raises an
    [Exception] nothing of the pipeline runs.  Typing is not started and
    no request is made; the failure is logged and reported to the room
    like any other. *)
Theorem read_receipt_failure_aborts w cfg evt calls e :
  should_respond w cfg evt = (calls, Ok true) ->
  mark_read w = Raise e ->
  is_Exception e = true ->
  fst (on_message w cfg evt) =
    calls ++
    [MarkRead;
     Log Exception ("Error handling message: " +:+ exc_str e);
     Respond (Text ("Something went wrong: " +:+ exc_str e));
     SetTyping (room_id evt) 0].
Proof.
  intros Hgate Hread He.
  rewrite (on_message_gated _ _ _ _ Hgate).
  unfold perform, log. rewrite Hread.
  cbn [bind fst snd app try_except]. rewrite He.
  cbn [bind fst snd app try_finally]. reflexivity.
Qed.

Lemma read_receipt_failure_aborts_witness :
  let w := {| mxid := mxid world0;
              get_joined_members := get_joined_members world0;
              get_event := get_event world0;
              mark_read := Raise (Failure "M_FORBIDDEN");
              set_typing := set_typing world0;
              http_post := http_post world0;
              render := render world0;
              respond := respond world0 |} in
  let evt := message "@alice:example.org" "fxivity what is 2+2?" None in
  fst (on_message w cfg0 evt) =
    [] ++
    [MarkRead;
     Log Exception "Error handling message: M_FORBIDDEN";
     Respond (Text "Something went wrong: M_FORBIDDEN");
     SetTyping (room_id evt) 0].
Proof.
  intros w evt.
  apply (read_receipt_failure_aborts w cfg0 evt [] (Failure "M_FORBIDDEN"));
    reflexivity.
Defined.

(** X12.  When sending the answer itself fails with an [Exception], the
    bot tries once more: the failure is logged and a plain
    "Something went wrong: ..." text is sent after the failed notice,
    before typing is cleared. *)
Theorem failed_send_is_reported w cfg evt calls request response html e :
  should_respond w cfg evt = (calls, Ok true) ->
  mark_read w = Ok tt ->
  set_typing w (room_id evt) 30000 = Ok tt ->
  _call_openrouter w cfg (extract_query (bot_name cfg) (body evt))
    = (request, Ok response) ->
  render w response = Ok html ->
  respond w (Content (answer_content response html)) = Raise e ->
  is_Exception e = true ->
  fst (on_message w cfg evt) =
    calls ++
    [MarkRead; SetTyping (room_id evt) 30000] ++ request ++
    [Respond (Content (answer_content response html));
     Log Exception ("Error handling message: " +:+ exc_str e);
     Respond (Text ("Something went wrong: " +:+ exc_str e));
     SetTyping (room_id evt) 0].
Proof.
  intros Hgate Hread Htyping Hcall Hhtml Hsend He.
  rewrite (on_message_gated _ _ _ _ Hgate), Hcall.
  unfold perform, log, lift. rewrite Hread, Htyping.
  cbn [bind fst snd app]. rewrite Hhtml.
  cbn [bind fst snd app]. rewrite Hsend.
  cbn [bind fst snd app try_except]. rewrite He.
  cbn [bind fst snd app try_finally].
  rewrite <- !app_assoc. reflexivity.
Qed.

Lemma failed_send_is_reported_witness :
  let w := {| mxid := mxid world0;
              get_joined_members := get_joined_members world0;
              get_event := get_event world0;
              mark_read := mark_read world0;
              set_typing := set_typing world0;
              http_post := http_post world0;
              render := render world0;
              respond := fun p =>
                match p with
                | Content _ => Raise (Failure "M_TOO_LARGE")
                | Text _ => Ok tt
                end |} in
  let evt := message "@alice:example.org" "fxivity what is 2+2?" None in
  let response := JStr "Error: API returned status 500" in
  let html := "<p>Error: API returned status 500</p>" in
  fst (on_message w cfg0 evt) =
    [] ++
    [MarkRead; SetTyping (room_id evt) 30000] ++
    [Post api_endpoint (request_headers cfg0) (request_data cfg0 "what is 2+2?");
     Log Error "OpenRouter API error: 500 - server error"] ++
    [Respond (Content (answer_content response html));
     Log Exception "Error handling message: M_TOO_LARGE";
     Respond (Text "Something went wrong: M_TOO_LARGE");
     SetTyping (room_id evt) 0].
Proof.
  intros w evt response html.
  apply (failed_send_is_reported w cfg0 evt []
           [Post api_endpoint (request_headers cfg0)
              (request_data cfg0 "what is 2+2?");
            Log Error "OpenRouter API error: 500 - server error"]
           response html (Failure "M_TOO_LARGE")); reflexivity.
Defined.

(** X13.  An exception leaves [on_message] in four ways only: the gate
    raised it, or it is no [Exception] (a cancellation), or sending the
    "Something went wrong" text raised it, or clearing typing raised
    it. *)
Theorem on_message_raises_only w cfg evt e :
  snd (on_message w cfg evt) = Raise e ->
  snd (should_respond w cfg evt) = Raise e \/
  is_Exception e = false \/
  (exists e0,
     respond w (Text ("Something went wrong: " +:+ exc_str e0)) = Raise e) \/
  set_typing w (room_id evt) 0 = Raise e.
Proof.
  destruct (should_respond w cfg evt) as [calls [[|]|e0]] eqn:Hgate.
  - rewrite (on_message_gated _ _ _ _ Hgate). cbn [snd].
    match goal with
    | |- snd (try_finally (try_except ?m ?h) ?c) = _ -> _ =>
        destruct m as [t [a|e1]]
    end; unfold perform, log; cbn [try_except].
    + cbn [try_finally snd].
      destruct (set_typing w (room_id evt) 0); [discriminate|]. auto.
    + destruct (is_Exception e1) eqn:He1.
      * cbn [bind fst snd app try_finally].
        destruct (set_typing w (room_id evt) 0); [|auto].
        intros H. right. right. left. exists e1. exact H.
      * cbn [try_finally snd].
        destruct (set_typing w (room_id evt) 0); [|auto].
        intros [= <-]. auto.
  - unfold on_message. rewrite Hgate. discriminate.
  - unfold on_message. rewrite Hgate. simpl. intros [= ->]. left. reflexivity.
Qed.

Lemma on_message_raises_only_witness :
  let w := with_http world0 (Raise Cancelled) in
  let evt := message "@alice:example.org" "fxivity what is 2+2?" None in
  snd (should_respond w cfg0 evt) = Raise Cancelled \/
  is_Exception Cancelled = false \/
  (exists e0,
     respond w (Text ("Something went wrong: " +:+ exc_str e0)) = Raise Cancelled) \/
  set_typing w (room_id evt) 0 = Raise Cancelled.
Proof.
  intros w evt. apply (on_message_raises_only w cfg0 evt Cancelled). reflexivity.
Defined.

(** X14.  A message that the gate does not accept has no effect: all
    [on_message] does is the lookups of the gate.  No read receipt, no
    typing, no request, no reply. *)
Theorem unanswered_message_has_no_effect w cfg evt :
  snd (should_respond w cfg evt) <> Ok true ->
  fst (on_message w cfg evt) = fst (should_respond w cfg evt) /\
  Forall (gate_call evt) (fst (on_message w cfg evt)).
Proof.
  intros Hno.
  assert (Heq : fst (on_message w cfg evt) = fst (should_respond w cfg evt)).
  { unfold on_message.
    destruct (should_respond w cfg evt) as [calls [[|]|e]]; simpl in *.
    - contradiction.
    - apply app_nil_r.
    - reflexivity. }
  split; [exact Heq|]. rewrite Heq. apply should_respond_gate_calls.
Qed.

Lemma unanswered_message_has_no_effect_witness :
  let evt := message "@alice:example.org" "good morning all" None in
  fst (on_message world0 cfg0 evt) = fst (should_respond world0 cfg0 evt) /\
  Forall (gate_call evt) (fst (on_message world0 cfg0 evt)).
Proof.
  intros evt. apply (unanswered_message_has_no_effect world0 cfg0 evt).
  discriminate.
Defined.

Lemma gate_calls_filtered evt t :
  Forall (gate_call evt) t ->
  List.filter is_Post t = [] /\ List.filter is_Respond t = [].
Proof.
  induction 1 as [|c t Hc _ [IHp IHr]]; [split; reflexivity|].
  destruct c; simpl in *; try contradiction; auto.
Qed.

Lemma _call_openrouter_counts w cfg query :
  length (List.filter is_Post (fst (_call_openrouter w cfg query))) = 1 /\
  List.filter is_Respond (fst (_call_openrouter w cfg query)) = [].
Proof.
  unfold _call_openrouter, perform, lift, log.
  destruct (http_post w _ _ _) as [resp|e]; [|split; reflexivity].
  rewrite bind_Ok. destruct (negb _).
  - destruct (text resp); split; reflexivity.
  - destruct (json_body resp) as [j|]; [|split; reflexivity].
    cbn [bind fst snd app].
    destruct (getitem j "choices") as [c|]; [|split; reflexivity].
    cbn [bind fst snd app].
    destruct (getitem0 c) as [c0|]; [|split; reflexivity].
    cbn [bind fst snd app].
    destruct (getitem c0 "message") as [m|]; [|split; reflexivity].
    cbn [bind fst snd app].
    destruct (getitem m "content"); split; reflexivity.
Qed.

(** X15.  One message gives at most one request to the completion API,
    never a retry, and at most two sends to the room: the answer, and the
    "Something went wrong" text when something failed. *)
Theorem one_request_per_message w cfg evt :
  length (List.filter is_Post (fst (on_message w cfg evt))) <= 1 /\
  length (List.filter is_Respond (fst (on_message w cfg evt))) <= 2.
Proof.
  destruct (gate_calls_filtered evt _ (should_respond_gate_calls w cfg evt))
    as [Hposts Hsends].
  destruct (should_respond w cfg evt) as [calls [[|]|e]] eqn:Hgate;
    cbn [fst] in Hposts, Hsends.
  - rewrite (on_message_gated _ _ _ _ Hgate). cbn [fst].
    rewrite !List.filter_app, Hposts, Hsends. cbn [app].
    destruct (_call_openrouter_counts w cfg
                (extract_query (bot_name cfg) (body evt))) as [Hone Hnone].
    destruct (_call_openrouter w cfg _) as [request r]. cbn [fst] in Hone, Hnone.
    unfold perform, lift, log.
    destruct (mark_read w) as [[]|e1]; cbn [bind fst snd app try_except].
    + destruct (set_typing w (room_id evt) 30000) as [[]|e2];
        cbn [bind fst snd app try_except].
      * destruct r as [response|e3]; cbn [bind fst snd app try_except].
        -- destruct (render w response) as [html|e4];
             cbn [bind fst snd app try_except].
           ++ destruct (respond w (Content _)) as [[]|e5];
                cbn [bind fst snd app try_except try_finally];
                [|destruct (is_Exception e5);
                  cbn [bind fst snd app try_finally]];
                rewrite ?app_nil_r, ?List.filter_app, ?length_app, ?Hnone, ?Hone;
                simpl; rewrite ?List.filter_app, ?length_app, ?Hnone, ?Hone;
                simpl; lia.
           ++ destruct (is_Exception e4);
                cbn [bind fst snd app try_finally];
                rewrite ?app_nil_r, ?List.filter_app, ?length_app, ?Hnone, ?Hone;
                simpl; rewrite ?List.filter_app, ?length_app, ?Hnone, ?Hone;
                simpl; lia.
        -- destruct (is_Exception e3);
             cbn [bind fst snd app try_finally];
             rewrite ?app_nil_r, ?List.filter_app, ?length_app, ?Hnone, ?Hone;
             simpl; rewrite ?List.filter_app, ?length_app, ?Hnone, ?Hone;
             simpl; lia.
      * destruct (is_Exception e2); cbn [bind fst snd app try_finally];
          simpl; lia.
    + destruct (is_Exception e1); cbn [bind fst snd app try_finally];
        simpl; lia.
  - unfold on_message. rewrite Hgate, bind_Ok. cbn [negb ret fst].
    rewrite app_nil_r, Hposts, Hsends. simpl. lia.
  - unfold on_message. rewrite Hgate. cbn [bind fst].
    rewrite Hposts, Hsends. simpl. lia.
Qed.

(** * Further properties of the request *)

(** X16.  The object posted to the completion API has no field beyond
    "model", "messages", "max_tokens" and "temperature": no system prompt
    and no other option of the configuration reaches the request. *)
Theorem request_has_no_other_field cfg query :
  dom (request_data cfg query) ⊆
    ({[ "model"; "messages"; "max_tokens"; "temperature" ]} : gset string).
Proof.
  unfold request_data.
  destruct (truthy (max_tokens cfg)); destruct (temperature cfg);
    rewrite ?dom_insert_L, dom_empty_L;
    apply elem_of_subseteq; intros k;
    rewrite !elem_of_union, !elem_of_singleton, elem_of_empty; tauto.
Qed.

(** * Further properties of the query *)

Lemma rstrip_cons c s :
  isspace c = false -> rstrip (String c s) = String c (rstrip s).
Proof. intros Hc. cbn [rstrip]. rewrite Hc. destruct (rstrip s); reflexivity. Qed.

Lemma rstrip_rstrip s : rstrip (rstrip s) = rstrip s.
Proof.
  induction s as [|c s IH]; [reflexivity|]. cbn [rstrip].
  destruct (rstrip s) as [|d r] eqn:Hr.
  - destruct (isspace c) eqn:Hc; [reflexivity|].
    cbn [rstrip]. rewrite Hc. reflexivity.
  - cbn [rstrip]. cbn [rstrip] in IH. rewrite IH. reflexivity.
Qed.

Lemma lstrip_head s :
  match lstrip s with
  | String c _ => isspace c = false
  | EmptyString => True
  end.
Proof.
  induction s as [|c s IH]; simpl; [exact I|].
  destruct (isspace c) eqn:Hc; [exact IH | exact Hc].
Qed.

Lemma strip_trimmed s :
  lstrip (strip s) = strip s /\ rstrip (strip s) = strip s /\
  match strip s with
  | String c _ => isspace c = false
  | EmptyString => True
  end.
Proof.
  unfold strip. pose proof (lstrip_head s) as Hhead.
  split; [|split; [apply rstrip_rstrip|]];
    destruct (lstrip s) as [|c t]; try reflexivity; try exact I;
    rewrite (rstrip_cons _ _ Hhead); [|exact Hhead].
  cbn [lstrip]. rewrite Hhead. reflexivity.
Qed.

(** X17.  The query handed to the completion call is always trimmed: it
    is empty or starts with a character that is not whitespace, and
    stripping it again on either side changes nothing.  It may be empty:
    a body that is only the bot's name gives the empty query, which is
    sent as it is. *)
Theorem query_is_trimmed bot_name body :
  let query := extract_query bot_name body in
  lstrip query = query /\
  rstrip query = query /\
  match query with
  | String c _ => isspace c = false
  | EmptyString => True
  end.
Proof.
  unfold extract_query.
  destruct (startswith body "!sonar"); apply strip_trimmed.
Qed.

Lemma remove_names_nowhere name s :
  (forall k, starts_with_name name (slice_from k s) = false) ->
  remove_names name 0 s = s.
Proof.
  induction s as [|c s IH]; intros Hno; [reflexivity|].
  pose proof (Hno 0) as H0. pose proof (Hno 1) as H1.
  cbn [slice_from] in H0, H1.
  cbn [remove_names]. unfold name_occurrence, name_and_trailer.
  rewrite H1, H0, andb_false_r.
  f_equal. apply IH. intros k. apply (Hno (S k)).
Qed.

(** X18.  A body in which the bot's name occurs nowhere, in any case, and
    which is not the command, reaches the completion call unchanged but
    for the whitespace at its two ends. *)
Theorem query_without_name bot_name body :
  startswith body "!sonar" = false ->
  (forall k, starts_with_name bot_name (slice_from k body) = false) ->
  extract_query bot_name body = strip body.
Proof.
  intros Hcmd Hno. unfold extract_query.
  rewrite Hcmd, re_sub_name_pattern, (remove_names_nowhere _ _ Hno).
  reflexivity.
Qed.

Lemma query_without_name_witness :
  extract_query "bot" "  2+2?  " = strip "  2+2?  ".
Proof.
  apply query_without_name; [reflexivity|].
  intros [|[|[|[|[|[|[|[|[|k]]]]]]]]]; reflexivity.
Defined.

(** * Further properties of the name test *)

Lemma match_k_Seq ic n r1 r2 s k :
  match_k ic n (Seq r1 r2) s k =
  match_k ic n r1 s (fun s1 => match_k ic n r2 s1 k).
Proof. reflexivity. Qed.

Lemma found_or {A} (o1 o2 : option A) :
  found match o1 with Some x => Some x | None => o2 end
  = found o1 || found o2.
Proof. destruct o1; reflexivity. Qed.

Lemma found_is_Some {A} (o : option A) : bool_decide (is_Some o) = found o.
Proof. destruct o; reflexivity. Qed.

Lemma boundary_set_matches c :
  atom_matches true
    (CharSet [SChar " "; SChar ":"; SChar ","; SChar "."; SChar "!"; SChar "?"]) c
  = is_boundary c.
Proof. destruct c as [[] [] [] [] [] [] [] []]; vm_compute; reflexivity. Qed.

Lemma match_k_boundary n s0 t :
  found (match_k true n
           (Alt (One (CharSet [SChar " "; SChar ":"; SChar ","; SChar ".";
                               SChar "!"; SChar "?"])) Eol)
           t (accept false s0))
  = boundary_follows t.
Proof.
  cbn [match_k]. destruct t as [|c t]; [reflexivity|].
  rewrite boundary_set_matches. cbn [boundary_follows].
  destruct (is_boundary c); [reflexivity|].
  destruct t; destruct (Ascii.eqb c "010"); reflexivity.
Qed.

Lemma match_k_name_token n name s0 t :
  found (match_k true n
           (Seq (escape name)
              (Alt (One (CharSet [SChar " "; SChar ":"; SChar ","; SChar ".";
                                  SChar "!"; SChar "?"])) Eol))
           t (accept false s0))
  = name_token name t.
Proof.
  rewrite match_k_Seq, match_k_escape. unfold name_token.
  destruct (starts_with_name name t); [apply match_k_boundary | reflexivity].
Qed.

Lemma match_k_token n name s0 s :
  found (match_k true n
           (Seq (Opt (One (Lit "@")))
              (Seq (escape name)
                 (Alt (One (CharSet [SChar " "; SChar ":"; SChar ",";
                                     SChar "."; SChar "!"; SChar "?"])) Eol)))
           s (accept false s0))
  = token_at name s.
Proof.
  rewrite match_k_Seq.
  change (match_k true n (Opt (One (Lit "@"))) s ?k)
    with (match match_k true n (One (Lit "@")) s k with
          | Some rest => Some rest
          | None => k s
          end).
  rewrite found_or, match_k_name_token. unfold token_at.
  destruct s as [|c s]; [reflexivity|].
  change (match_k true n (One (Lit "@")) (String c s) ?k)
    with (if atom_matches true (Lit "@") c then k s else None).
  rewrite lit_at_matches.
  destruct (Ascii.eqb c "@"); [|reflexivity].
  rewrite match_k_name_token. reflexivity.
Qed.

Lemma match_at_mention n name s :
  found (match_at true n (mention_pattern name) false s) =
    (Nat.eqb (String.length s) n && token_at name s)
    || match s with
       | String c s' => isspace c && token_at name s'
       | EmptyString => false
       end.
Proof.
  unfold match_at, mention_pattern. rewrite match_k_Seq.
  change (match_k true n (Alt Bol (One Space)) s ?k)
    with (match (if Nat.eqb (String.length s) n then k s else None) with
          | Some rest => Some rest
          | None => match_k true n (One Space) s k
          end).
  rewrite found_or. f_equal.
  - destruct (Nat.eqb (String.length s) n); [apply match_k_token | reflexivity].
  - destruct s as [|c s]; [reflexivity|].
    change (match_k true n (One Space) (String c s) ?k)
      with (if isspace c then k s else None).
    destruct (isspace c); [apply match_k_token | reflexivity].
Qed.

Lemma search_from_mention n name s :
  String.length s <= n ->
  found (search_from true n (mention_pattern name) s) =
    addressed_from name (Nat.eqb (String.length s) n) s.
Proof.
  induction s as [|c s IH]; intros Hlen.
  - cbn [search_from addressed_from].
    pose proof (match_at_mention n name "") as Hm.
    destruct (match_at true n (mention_pattern name) false "");
      cbn [found] in *; rewrite <- Hm; reflexivity.
  - cbn [search_from addressed_from].
    pose proof (match_at_mention n name (String c s)) as Hm.
    cbn [String.length] in Hlen.
    assert (Hs : Nat.eqb (String.length s) n = false)
      by (apply Nat.eqb_neq; lia).
    rewrite Hs in IH.
    destruct (match_at true n (mention_pattern name) false (String c s));
      cbn [found] in Hm.
    + cbn [found]. rewrite orb_assoc, <- Hm. reflexivity.
    + rewrite orb_assoc, <- Hm. cbn [orb]. apply IH. lia.
Qed.

(** X19.  The name test of the gate is this scan: the body is taken to
    name the bot when, at its start or right after a whitespace character,
    there is the name in any case, with or without an "@" before it, and
    then one of the characters [ :,.!?], the end of the body, or the
    newline that ends the body.  In particular a body that starts with the
    name and such a character names the bot. *)
Theorem mentions_is_a_scan bot_name body :
  mentions bot_name body = addressed bot_name body /\
  (name_token bot_name body = true -> mentions bot_name body = true).
Proof.
  assert (H : mentions bot_name body = addressed bot_name body).
  { unfold mentions, re_search, addressed.
    rewrite found_is_Some, search_from_mention by lia.
    rewrite Nat.eqb_refl. reflexivity. }
  split; [exact H|]. rewrite H. unfold addressed. intros Htok.
  destruct body as [|c s]; cbn [addressed_from token_at andb].
  - rewrite Htok. reflexivity.
  - rewrite Htok, orb_true_r. reflexivity.
Qed.

Lemma mentions_is_a_scan_witness :
  mentions "Fxivity" "FXIVITY: are you there?" = true.
Proof.
  apply (proj2 (mentions_is_a_scan "Fxivity" "FXIVITY: are you there?")).
  reflexivity.
Defined.

(** * Further properties of the gate and the pipeline together *)

(** X20.  The marker makes the round trip: whatever content [on_message]
    sends, a later message that replies to it and reaches the reply-chain
    rule is decided by the allow-list alone, so an admitted sender
    continues the conversation without naming the bot. *)
Theorem answer_is_a_continuation w cfg evt content w' cfg' later parent_id :
  In (Respond (Content content)) (fst (on_message w cfg evt)) ->
  mxid w' = mxid w ->
  reaches_reply_rule w' cfg' later ->
  reply_to later = Some parent_id ->
  get_event w' (room_id later) parent_id
    = Ok (Some {| ev_sender := mxid w; ev_content := Some content |}) ->
  snd (should_respond w' cfg' later) =
    match user_allowed cfg' (sender later) with
    | Ok allowed => Ok allowed
    | Raise _ => Ok false
    end.
Proof.
  intros Hin Hmxid Hreach Hreply Hparent.
  pose proof (on_message_calls w cfg evt) as Hall.
  rewrite List.Forall_forall in Hall. specialize (Hall _ Hin).
  cbn [reply_shape] in Hall.
  rewrite (should_respond_reply_rule _ _ _ Hreach).
  unfold reply_rule. rewrite Hreply, Hparent.
  unfold is_continuation. cbn [ev_sender ev_content].
  rewrite Hmxid, String.eqb_refl, Hall. cbn [andb].
  destruct (user_allowed cfg' (sender later)); reflexivity.
Qed.

Lemma answer_is_a_continuation_witness :
  let evt := message "@alice:example.org" "fxivity: capital of France" None in
  let content :=
    answer_content (JStr "Error: API returned status 500")
                   "<p>Error: API returned status 500</p>" in
  let w' := with_parent world0
              (Ok (Some {| ev_sender := mxid world0;
                           ev_content := Some content |})) in
  let later := message "@alice:example.org" "try again please" (Some "$reply") in
  snd (should_respond w' cfg0 later) = Ok true.
Proof.
  intros evt content w' later.
  apply (answer_is_a_continuation world0 cfg0 evt content w' cfg0 later "$reply").
  - simpl. auto 10.
  - reflexivity.
  - repeat split; try reflexivity; [discriminate | left; discriminate].
  - reflexivity.
  - reflexivity.
Defined.

(** X21.  Every body that starts with "!" and every message that is not
    plain text is ignored, whoever sends it and whatever it says: the gate
    makes no call, [on_message] does nothing, and neither does the
    [sonar] command, whose own event has such a body. *)
Theorem commands_and_other_kinds_are_ignored w cfg evt :
  startswith (body evt) "!" = true \/ msgtype evt <> TEXT ->
  should_respond w cfg evt = ([], Ok false) /\
  on_message w cfg evt = ([], Ok tt) /\
  (forall query, sonar w cfg evt query = ([], Ok tt)).
Proof.
  intros H.
  assert (Hgate : should_respond w cfg evt = ([], Ok false)).
  { unfold should_respond. destruct H as [Hbang|Hkind].
    - rewrite Hbang, orb_true_r. reflexivity.
    - destruct (msgtype evt); try contradiction;
        rewrite orb_true_r; reflexivity. }
  assert (Hrun : on_message w cfg evt = ([], Ok tt)).
  { unfold on_message. rewrite Hgate. reflexivity. }
  split; [exact Hgate|]. split; [exact Hrun|]. intros query. exact Hrun.
Qed.

Lemma commands_and_other_kinds_are_ignored_witness :
  let evt := {| sender := "@alice:example.org";
                room_id := "!room:example.org";
                body := "fxivity.png";
                msgtype := OtherType "m.image";
                reply_to := None |} in
  should_respond world0 cfg0 evt = ([], Ok false) /\
  on_message world0 cfg0 evt = ([], Ok tt) /\
  (forall query, sonar world0 cfg0 evt query = ([], Ok tt)).
Proof.
  intros evt. apply (commands_and_other_kinds_are_ignored world0 cfg0 evt).
  right. discriminate.
Defined.
